(** * Paxos simulation: network fabric, proposer, learner and driver

    A shallow embedding of [paxos_analysis/paxos_simulation.py].  Every
    method becomes a function on an explicit state record.  Calls that leave
    the object (handing a message to the network, arming a
    [threading.Timer], starting a delivery thread, invoking a node's
    handler) are returned as a list of effects in program order.  Clock
    readings ([time.time()]) and random draws are arguments. *)

From Stdlib Require Import ZArith QArith Qminmax Lia.
From stdpp Require Import gmap strings list fin_maps pretty.

Local Open Scope Z_scope.

(** ** Proposal identifiers *)

(** Modelled from the spec: [ProposalID] is imported from [paxos.essential],
    which is not among the sources.  The spec gives it as the pair (round,
    proposer), ordered by round first and by proposer id on ties; it is used
    as a dictionary key, so equality is by value. *)
Record ProposalID := mkProposalID { number : Z; uid : string }.

#[global] Instance ProposalID_eq_dec : EqDecision ProposalID.
Proof. solve_decision. Defined.

#[global] Instance ProposalID_countable : Countable ProposalID.
Proof.
  apply (inj_countable' (fun p => (number p, uid p))
                        (fun t => mkProposalID t.1 t.2)).
  by intros [].
Defined.

Definition pid_gtb (a b : ProposalID) : bool :=
  match number a ?= number b with
  | Gt => true
  | Lt => false
  | Eq => String.ltb (uid b) (uid a)
  end.

(** [x > y] where either side may be [None]: Python 3 raises [TypeError]
    when an operand is [None]; that is the [None] result here. *)
Definition py_gt (a b : option ProposalID) : option bool :=
  match a, b with
  | Some x, Some y => Some (pid_gtb x y)
  | _, _ => None
  end.

(** ** Messages *)

Record NetworkMessage := mkMsg {
  msg_type : string;
  sender : string;
  receiver : string;
  proposal_id : ProposalID;
  previous_id : option ProposalID;
  accepted_value : option string;
  dropped : bool
}.

(** ** Nodes as the network sees them *)

Inductive Role := PaxosProposerNode | PaxosAcceptorNode | PaxosLearnerNode.

#[global] Instance Role_eq_dec : EqDecision Role.
Proof. solve_decision. Defined.

(** What the fabric reads of a registered node object: its class (for the
    [isinstance] tests) and its run flag. *)
Record NodeRef := mkNodeRef { node_role : Role; node_running : bool }.

(** [self.nodes]: a dict, kept with its insertion order because the
    broadcasts iterate over [items()]. *)
Definition NodeMap := list (string * NodeRef).

Fixpoint nodes_get (nodes : NodeMap) (k : string) : option NodeRef :=
  match nodes with
  | [] => None
  | (k', n) :: rest => if decide (k' = k) then Some n else nodes_get rest k
  end.

Fixpoint nodes_set (nodes : NodeMap) (k : string) (n : NodeRef) : NodeMap :=
  match nodes with
  | [] => [(k, n)]
  | (k', n') :: rest =>
      if decide (k' = k) then (k, n) :: rest else (k', n') :: nodes_set rest k n
  end.

(** The ids of the registered acceptors, in iteration order. *)
Definition acceptor_ids (nodes : NodeMap) : list string :=
  (filter (fun kn => node_role kn.2 = PaxosAcceptorNode) nodes).*1.

(** ** Effects *)

Inductive TimerTarget :=
| RetryMessage (msg_id from_node to_node : string) (message : NetworkMessage)
               (attempt : Z)
| CheckPromiseTimeout (pid : ProposalID)
| CheckAcceptTimeout (pid : ProposalID).

Inductive Effect :=
| SendMessage (msg : NetworkMessage)
      (** [self.network.send_message(msg)] *)
| StartTimer (delay : Q) (target : TimerTarget)
      (** [threading.Timer(delay, target).start()] *)
| StartDelivery (msg : NetworkMessage) (msg_id : string) (delay : Q)
      (** a thread running [_deliver_message] (delay 0) or
          [_delayed_delivery] *)
| HandleMessage (node_id : string) (msg : NetworkMessage)
      (** [target_node.handle_message(msg)] *)
| OnResolution (pid : ProposalID) (value : option string).
      (** [self.on_resolution(proposal_id, value)] *)

(** ** The network simulator *)

Record NetworkSimulator := mkNet {
  nodes : NodeMap;
  delay_range : Q * Q;
  failure_rate : Q;
  net_running : bool;
  message_count : Z;
  dropped_messages : Z;
  max_retries : Z;
  active_messages : gset string;
  total_retries : Z
}.

Definition NetworkSimulator_init (delay_range : Q * Q) (failure_rate : Q)
  : NetworkSimulator :=
  {| nodes := []; delay_range := delay_range; failure_rate := failure_rate;
     net_running := true; message_count := 0; dropped_messages := 0;
     max_retries := 3; active_messages := ∅; total_retries := 0 |}.

Definition register_node (net : NetworkSimulator) (node_id : string)
    (node : NodeRef) : NetworkSimulator :=
  {| nodes := nodes_set (nodes net) node_id node;
     delay_range := delay_range net; failure_rate := failure_rate net;
     net_running := net_running net; message_count := message_count net;
     dropped_messages := dropped_messages net; max_retries := max_retries net;
     active_messages := active_messages net;
     total_retries := total_retries net |}.

Definition set_active (net : NetworkSimulator) (a : gset string)
  : NetworkSimulator :=
  {| nodes := nodes net;
     delay_range := delay_range net; failure_rate := failure_rate net;
     net_running := net_running net; message_count := message_count net;
     dropped_messages := dropped_messages net; max_retries := max_retries net;
     active_messages := a;
     total_retries := total_retries net |}.

Definition Qltb (x y : Q) : bool := negb (Qle_bool y x).

Definition set_dropped (msg : NetworkMessage) (d : bool) : NetworkMessage :=
  {| msg_type := msg_type msg; sender := sender msg; receiver := receiver msg;
     proposal_id := proposal_id msg; previous_id := previous_id msg;
     accepted_value := accepted_value msg; dropped := d |}.

Section Network.

(** [str(proposal_id)], as the f-strings that build message ids use it.
    The class is not among the sources, so its rendering is a parameter. *)
Variable str_pid : ProposalID -> string.

Definition network_msg_id (msg : NetworkMessage) (retry_count : Z) : string :=
  sender msg +:+ "-" +:+ receiver msg +:+ "-" +:+ msg_type msg +:+ "-"
    +:+ str_pid (proposal_id msg) +:+ "-" +:+ pretty retry_count.

(** [send_message(msg, retry_count)].  [rnd] is the value [random.random()]
    returns if it is called, [dly] the value of
    [random.uniform] over [self.delay_range].  Visualizer calls only log and
    draw; they are left out. *)
Definition send_message (net : NetworkSimulator) (msg : NetworkMessage)
    (retry_count : Z) (rnd dly : Q) : NetworkSimulator * list Effect :=
  if negb (net_running net) then (net, []) else
  let msg_id := network_msg_id msg retry_count in
  if decide (msg_id ∈ active_messages net) then (net, []) else
  let active1 := active_messages net ∪ {[ msg_id ]} in
  let count1 := message_count net + 1 in
  if Qltb 0 (failure_rate net) && Qltb rnd (failure_rate net) then
    let dropped1 := dropped_messages net + 1 in
    let net1 a :=
      {| nodes := nodes net; delay_range := delay_range net;
         failure_rate := failure_rate net; net_running := net_running net;
         message_count := count1; dropped_messages := dropped1;
         max_retries := max_retries net; active_messages := a;
         total_retries := total_retries net |} in
    if Qle_bool 1 (failure_rate net) then
      (net1 (active1 ∖ {[ msg_id ]}), [])
    else if retry_count <? max_retries net then
      let delay := Qmin ((1 # 2) * 2 ^ retry_count) 5 in
      (net1 active1,
       [StartTimer delay
          (RetryMessage msg_id (sender msg) (receiver msg)
                        (set_dropped msg true) (retry_count + 1))])
    else
      (net1 (active1 ∖ {[ msg_id ]}), [])
  else
    ({| nodes := nodes net; delay_range := delay_range net;
        failure_rate := failure_rate net; net_running := net_running net;
        message_count := count1; dropped_messages := dropped_messages net;
        max_retries := max_retries net; active_messages := active1;
        total_retries := total_retries net |},
     [StartDelivery (set_dropped msg false) msg_id dly]).

End Network.

(** [_retry_message(msg_id, from_node, to_node, message, attempt)], the timer
    callback armed on a drop.  [rnd] is the draw of [random.random()]. *)
Definition retry_message (net : NetworkSimulator) (msg_id from_node to_node : string)
    (message : NetworkMessage) (attempt : Z) (rnd : Q)
  : NetworkSimulator * list Effect :=
  if negb (net_running net) || (3 <=? attempt) then
    (set_active net (active_messages net ∖ {[ msg_id ]}), [])
  else if decide (msg_id ∉ active_messages net) then (net, [])
  else if Qltb rnd (failure_rate net) then
    let delay := Qmin ((1 # 10) * 2 ^ attempt) 1 in
    ({| nodes := nodes net; delay_range := delay_range net;
        failure_rate := failure_rate net; net_running := net_running net;
        message_count := message_count net;
        dropped_messages := dropped_messages net + 1;
        max_retries := max_retries net;
        active_messages := active_messages net;
        total_retries := total_retries net + 1 |},
     [StartTimer delay
        (RetryMessage msg_id from_node to_node message (attempt + 1))])
  else
    (set_active net (active_messages net ∖ {[ msg_id ]}),
     match nodes_get (nodes net) to_node with
     | Some target_node =>
         if node_running target_node then [HandleMessage to_node message] else []
     | None => []
     end).

(** [_deliver_message(msg, msg_id)]: the handler call sits in a [try] whose
    [finally] discards the token. *)
Definition deliver_message (net : NetworkSimulator) (msg : NetworkMessage)
    (msg_id : string) : NetworkSimulator * list Effect :=
  (set_active net (active_messages net ∖ {[ msg_id ]}),
   match nodes_get (nodes net) (receiver msg) with
   | Some target_node =>
       if node_running target_node then [HandleMessage (receiver msg) msg] else []
   | None => []
   end).

(** [stop()] *)
Definition stop (net : NetworkSimulator) : NetworkSimulator :=
  {| nodes := nodes net; delay_range := delay_range net;
     failure_rate := failure_rate net; net_running := false;
     message_count := message_count net;
     dropped_messages := dropped_messages net; max_retries := max_retries net;
     active_messages := ∅; total_retries := total_retries net |}.

(** ** The proposer *)

Inductive Phase := prepare_phase | accept_phase.

#[global] Instance Phase_eq_dec : EqDecision Phase.
Proof. solve_decision. Defined.

(** An entry of [pending_promises]; ['value'] is [None] or the pair
    [(previous_id, accepted_value)] of a promise. *)
Record PromiseRecord := mkPromiseRecord {
  p_count : Z;
  p_start_time : Q;
  p_received : gset string;
  p_value : option (option ProposalID * string);
  p_retry_count : Z
}.

(** An entry of [pending_accepts]. *)
Record AcceptRecord := mkAcceptRecord {
  a_count : Z;
  a_start_time : Q;
  a_received : gset string;
  a_value : option string;
  a_retry_count : Z
}.

Record PaxosProposer := mkProposer {
  node_id : string;
  running : bool;
  proposer_uid : string;
  quorum_size : Z;
  next_proposal_number : Z;
  pending_promises : gmap ProposalID PromiseRecord;
  timeout : Q;
  pending_accepts : gmap ProposalID AcceptRecord;
  current_phase : option Phase;
  proposal_value : option string;
  processed_messages : gset string;
  quorum_reached : bool;
  current_proposal_id : option ProposalID;   (* [self.proposal_id] *)
  consensus_time : option Q;
  start_time : option Q;
  rounds : Z;
  (* attributes of the base class [Proposer] that this class writes *)
  promises_rcvd : gset string;
  last_accepted_id : option ProposalID;
  proposed_value : option string
}.

Definition PaxosProposer_init (node_id : string) (quorum_size : Z)
  : PaxosProposer :=
  {| node_id := node_id; running := true; proposer_uid := node_id;
     quorum_size := quorum_size; next_proposal_number := 1;
     pending_promises := ∅; timeout := 4; pending_accepts := ∅;
     current_phase := None; proposal_value := None;
     processed_messages := ∅; quorum_reached := false;
     current_proposal_id := None; consensus_time := None;
     start_time := None; rounds := 0;
     promises_rcvd := ∅; last_accepted_id := None; proposed_value := None |}.

Definition set_proposal (p : PaxosProposer) (value : string) : PaxosProposer :=
  {| node_id := node_id p; running := running p;
     proposer_uid := proposer_uid p; quorum_size := quorum_size p;
     next_proposal_number := next_proposal_number p;
     pending_promises := pending_promises p; timeout := timeout p;
     pending_accepts := pending_accepts p; current_phase := current_phase p;
     proposal_value := Some value;
     processed_messages := processed_messages p;
     quorum_reached := quorum_reached p;
     current_proposal_id := current_proposal_id p;
     consensus_time := consensus_time p; start_time := start_time p;
     rounds := rounds p; promises_rcvd := promises_rcvd p;
     last_accepted_id := last_accepted_id p;
     proposed_value := proposed_value p |}.

(** The driver's and the crash injectors' direct writes. *)
Definition set_running (p : PaxosProposer) (b : bool) : PaxosProposer :=
  {| node_id := node_id p; running := b;
     proposer_uid := proposer_uid p; quorum_size := quorum_size p;
     next_proposal_number := next_proposal_number p;
     pending_promises := pending_promises p; timeout := timeout p;
     pending_accepts := pending_accepts p; current_phase := current_phase p;
     proposal_value := proposal_value p;
     processed_messages := processed_messages p;
     quorum_reached := quorum_reached p;
     current_proposal_id := current_proposal_id p;
     consensus_time := consensus_time p; start_time := start_time p;
     rounds := rounds p; promises_rcvd := promises_rcvd p;
     last_accepted_id := last_accepted_id p;
     proposed_value := proposed_value p |}.

Definition set_start_time (p : PaxosProposer) (t : Q) : PaxosProposer :=
  {| node_id := node_id p; running := running p;
     proposer_uid := proposer_uid p; quorum_size := quorum_size p;
     next_proposal_number := next_proposal_number p;
     pending_promises := pending_promises p; timeout := timeout p;
     pending_accepts := pending_accepts p; current_phase := current_phase p;
     proposal_value := proposal_value p;
     processed_messages := processed_messages p;
     quorum_reached := quorum_reached p;
     current_proposal_id := current_proposal_id p;
     consensus_time := consensus_time p; start_time := Some t;
     rounds := rounds p; promises_rcvd := promises_rcvd p;
     last_accepted_id := last_accepted_id p;
     proposed_value := proposed_value p |}.

(** The messages one broadcast hands to the network: one per registered
    acceptor, in the order of [self.network.nodes.items()]. *)
Definition broadcast (nodes : NodeMap) (kind : string) (from : string)
    (pid : ProposalID) (value : option string) : list Effect :=
  (fun to => SendMessage (mkMsg kind from to pid None value false))
    <$> acceptor_ids nodes.

(** [prepare()].  [nodes] is [self.network.nodes]; [now] is the clock. *)
Definition prepare (nodes : NodeMap) (now : Q) (p : PaxosProposer)
  : PaxosProposer * list Effect :=
  if negb (running p) then (p, []) else
  let n := next_proposal_number p + 1 in
  let pid := mkProposalID n (proposer_uid p) in
  ({| node_id := node_id p; running := running p;
      proposer_uid := proposer_uid p; quorum_size := quorum_size p;
      next_proposal_number := n;
      pending_promises :=
        <[ pid := mkPromiseRecord 0 now ∅ None 0 ]> (pending_promises p);
      timeout := timeout p;
      pending_accepts := pending_accepts p;
      current_phase := Some prepare_phase;
      proposal_value := proposal_value p;
      processed_messages := processed_messages p;
      quorum_reached := false;
      current_proposal_id := Some pid;
      consensus_time := consensus_time p;
      start_time := match start_time p with
                    | None => Some now
                    | Some t => Some t
                    end;
      rounds := rounds p + 1;
      promises_rcvd := ∅;
      last_accepted_id := None;
      proposed_value := proposed_value p |},
   broadcast nodes "prepare" (node_id p) pid None
     ++ [StartTimer (timeout p) (CheckPromiseTimeout pid)]).

(** [send_accept(proposal_id, proposal_value)] *)
Definition send_accept (nodes : NodeMap) (now : Q) (p : PaxosProposer)
    (pid : ProposalID) (value : option string) : PaxosProposer * list Effect :=
  if negb (running p) then (p, []) else
  if negb (quorum_reached p) then (p, []) else
  ({| node_id := node_id p; running := running p;
      proposer_uid := proposer_uid p; quorum_size := quorum_size p;
      next_proposal_number := next_proposal_number p;
      pending_promises := pending_promises p;
      timeout := timeout p;
      pending_accepts :=
        <[ pid := mkAcceptRecord 0 now ∅ value 0 ]> (pending_accepts p);
      current_phase := Some accept_phase;
      proposal_value := proposal_value p;
      processed_messages := processed_messages p;
      quorum_reached := quorum_reached p;
      current_proposal_id := current_proposal_id p;
      consensus_time := consensus_time p;
      start_time := start_time p;
      rounds := rounds p;
      promises_rcvd := promises_rcvd p;
      last_accepted_id := last_accepted_id p;
      proposed_value := proposed_value p |},
   broadcast nodes "accept" (node_id p) pid value
     ++ [StartTimer (timeout p) (CheckAcceptTimeout pid)]).

(** Field updates used by the timeout checks and the handlers. *)
Definition with_promises (p : PaxosProposer)
    (m : gmap ProposalID PromiseRecord) : PaxosProposer :=
  {| node_id := node_id p; running := running p;
     proposer_uid := proposer_uid p; quorum_size := quorum_size p;
     next_proposal_number := next_proposal_number p;
     pending_promises := m; timeout := timeout p;
     pending_accepts := pending_accepts p; current_phase := current_phase p;
     proposal_value := proposal_value p;
     processed_messages := processed_messages p;
     quorum_reached := quorum_reached p;
     current_proposal_id := current_proposal_id p;
     consensus_time := consensus_time p; start_time := start_time p;
     rounds := rounds p; promises_rcvd := promises_rcvd p;
     last_accepted_id := last_accepted_id p;
     proposed_value := proposed_value p |}.

Definition with_accepts (p : PaxosProposer)
    (m : gmap ProposalID AcceptRecord) : PaxosProposer :=
  {| node_id := node_id p; running := running p;
     proposer_uid := proposer_uid p; quorum_size := quorum_size p;
     next_proposal_number := next_proposal_number p;
     pending_promises := pending_promises p; timeout := timeout p;
     pending_accepts := m; current_phase := current_phase p;
     proposal_value := proposal_value p;
     processed_messages := processed_messages p;
     quorum_reached := quorum_reached p;
     current_proposal_id := current_proposal_id p;
     consensus_time := consensus_time p; start_time := start_time p;
     rounds := rounds p; promises_rcvd := promises_rcvd p;
     last_accepted_id := last_accepted_id p;
     proposed_value := proposed_value p |}.

Definition with_phase (p : PaxosProposer) (ph : option Phase) : PaxosProposer :=
  {| node_id := node_id p; running := running p;
     proposer_uid := proposer_uid p; quorum_size := quorum_size p;
     next_proposal_number := next_proposal_number p;
     pending_promises := pending_promises p; timeout := timeout p;
     pending_accepts := pending_accepts p; current_phase := ph;
     proposal_value := proposal_value p;
     processed_messages := processed_messages p;
     quorum_reached := quorum_reached p;
     current_proposal_id := current_proposal_id p;
     consensus_time := consensus_time p; start_time := start_time p;
     rounds := rounds p; promises_rcvd := promises_rcvd p;
     last_accepted_id := last_accepted_id p;
     proposed_value := proposed_value p |}.

Definition with_next_number (p : PaxosProposer) (n : Z) : PaxosProposer :=
  {| node_id := node_id p; running := running p;
     proposer_uid := proposer_uid p; quorum_size := quorum_size p;
     next_proposal_number := n;
     pending_promises := pending_promises p; timeout := timeout p;
     pending_accepts := pending_accepts p; current_phase := current_phase p;
     proposal_value := proposal_value p;
     processed_messages := processed_messages p;
     quorum_reached := quorum_reached p;
     current_proposal_id := current_proposal_id p;
     consensus_time := consensus_time p; start_time := start_time p;
     rounds := rounds p; promises_rcvd := promises_rcvd p;
     last_accepted_id := last_accepted_id p;
     proposed_value := proposed_value p |}.

Definition with_rounds (p : PaxosProposer) (n : Z) : PaxosProposer :=
  {| node_id := node_id p; running := running p;
     proposer_uid := proposer_uid p; quorum_size := quorum_size p;
     next_proposal_number := next_proposal_number p;
     pending_promises := pending_promises p; timeout := timeout p;
     pending_accepts := pending_accepts p; current_phase := current_phase p;
     proposal_value := proposal_value p;
     processed_messages := processed_messages p;
     quorum_reached := quorum_reached p;
     current_proposal_id := current_proposal_id p;
     consensus_time := consensus_time p; start_time := start_time p;
     rounds := n; promises_rcvd := promises_rcvd p;
     last_accepted_id := last_accepted_id p;
     proposed_value := proposed_value p |}.

(** [_check_promise_timeout(proposal_id)], the callback of the timer that
    [prepare] arms. *)
Definition check_promise_timeout (nodes : NodeMap) (now : Q) (p : PaxosProposer)
    (pid : ProposalID) : PaxosProposer * list Effect :=
  match pending_promises p !! pid with
  | None => (p, [])
  | Some promises =>
      if p_count promises <? quorum_size p then
        let retry := p_retry_count promises + 1 in
        let promises' :=
          mkPromiseRecord (p_count promises) (p_start_time promises)
            (p_received promises) (p_value promises) retry in
        let p1 := with_promises p (<[ pid := promises' ]> (pending_promises p)) in
        if retry <? 3 then
          let p2 := with_next_number p1 (next_proposal_number p1 + 1) in
          prepare nodes now (with_phase p2 None)
        else
          (with_phase (with_promises p1 (delete pid (pending_promises p1))) None,
           [])
      else (p, [])
  end.

(** [_check_accept_timeout(proposal_id)], the callback of the timer that
    [send_accept] arms. *)
Definition check_accept_timeout (nodes : NodeMap) (now : Q) (p : PaxosProposer)
    (pid : ProposalID) : PaxosProposer * list Effect :=
  match pending_accepts p !! pid with
  | None => (p, [])
  | Some accepts =>
      if a_count accepts <? quorum_size p then
        let retry := a_retry_count accepts + 1 in
        let accepts' :=
          mkAcceptRecord (a_count accepts) (a_start_time accepts)
            (a_received accepts) (a_value accepts) retry in
        let p1 := with_accepts p (<[ pid := accepts' ]> (pending_accepts p)) in
        if retry <? 3 then
          send_accept nodes now (with_rounds p1 (rounds p1 + 1)) pid
            (a_value accepts')
        else
          let p2 := with_phase p1 None in
          prepare nodes now (with_next_number p2 (next_proposal_number p2 + 1))
      else (p, [])
  end.

(** [handle_promise(msg)].  The third component tells whether the call
    raised: comparing [msg.previous_id] with the recorded best id is done
    outside the [try] block, and raises when either is [None].  The record
    has been updated in place by then, so the state returned in that case
    carries the new count. *)
Definition handle_promise (nodes : NodeMap) (now : Q) (p : PaxosProposer)
    (msg : NetworkMessage) : PaxosProposer * list Effect * bool :=
  match pending_promises p !! proposal_id msg, current_phase p with
  | Some promises, Some prepare_phase =>
      if decide (sender msg ∈ p_received promises) then (p, [], false) else
      let promises1 :=
        mkPromiseRecord (p_count promises + 1) (p_start_time promises)
          (p_received promises ∪ {[ sender msg ]}) (p_value promises)
          (p_retry_count promises) in
      let tracked : option (option (option ProposalID * string)) :=
        match accepted_value msg with
        | None => Some (p_value promises1)
        | Some av =>
            match p_value promises1 with
            | None => Some (Some (previous_id msg, av))
            | Some (best_id, _) =>
                match py_gt (previous_id msg) best_id with
                | None => None
                | Some true => Some (Some (previous_id msg, av))
                | Some false => Some (p_value promises1)
                end
            end
        end in
      match tracked with
      | None =>
          (with_promises p
             (<[ proposal_id msg := promises1 ]> (pending_promises p)),
           [], true)
      | Some best =>
          let promises2 :=
            mkPromiseRecord (p_count promises1) (p_start_time promises1)
              (p_received promises1) best (p_retry_count promises1) in
          let newer :=
            match previous_id msg with
            | Some prev =>
                match last_accepted_id p with
                | None => true
                | Some last => pid_gtb prev last
                end
            | None => false
            end in
          let rcvd := promises_rcvd p ∪ {[ sender msg ]} in
          let reached :=
            (quorum_size p <=? Z.of_nat (size rcvd)) && negb (quorum_reached p) in
          let p1 :=
            {| node_id := node_id p; running := running p;
               proposer_uid := proposer_uid p; quorum_size := quorum_size p;
               next_proposal_number := next_proposal_number p;
               pending_promises :=
                 <[ proposal_id msg := promises2 ]> (pending_promises p);
               timeout := timeout p;
               pending_accepts := pending_accepts p;
               current_phase := current_phase p;
               proposal_value := proposal_value p;
               processed_messages := processed_messages p;
               quorum_reached := if reached then true else quorum_reached p;
               current_proposal_id := current_proposal_id p;
               consensus_time := consensus_time p;
               start_time := start_time p;
               rounds := rounds p;
               promises_rcvd := rcvd;
               last_accepted_id :=
                 if newer then previous_id msg else last_accepted_id p;
               proposed_value :=
                 if newer then
                   match accepted_value msg with
                   | Some av => Some av
                   | None => proposed_value p
                   end
                 else proposed_value p |} in
          if reached then
            let value :=
              match p_value promises2 with
              | Some (_, v) => Some v
              | None => proposal_value p
              end in
            let '(p2, out) := send_accept nodes now p1 (proposal_id msg) value in
            (with_promises p2 (delete (proposal_id msg) (pending_promises p2)),
             out, false)
          else (p1, [], false)
      end
  | _, _ => (p, [], false)
  end.

(** [handle_accepted(msg)] *)
Definition handle_accepted (now : Q) (p : PaxosProposer) (msg : NetworkMessage)
  : PaxosProposer :=
  match pending_accepts p !! proposal_id msg, current_phase p with
  | Some accepts, Some accept_phase =>
      if decide (sender msg ∈ a_received accepts) then p else
      let accepts1 :=
        mkAcceptRecord (a_count accepts + 1) (a_start_time accepts)
          (a_received accepts ∪ {[ sender msg ]}) (a_value accepts)
          (a_retry_count accepts) in
      if quorum_size p <=? a_count accepts1 then
        {| node_id := node_id p; running := running p;
           proposer_uid := proposer_uid p; quorum_size := quorum_size p;
           next_proposal_number := next_proposal_number p;
           pending_promises := pending_promises p; timeout := timeout p;
           pending_accepts := delete (proposal_id msg) (pending_accepts p);
           current_phase := None;
           proposal_value := proposal_value p;
           processed_messages := processed_messages p;
           quorum_reached := quorum_reached p;
           current_proposal_id := current_proposal_id p;
           consensus_time := match consensus_time p with
                             | None => Some now
                             | Some t => Some t
                             end;
           start_time := start_time p;
           rounds := rounds p; promises_rcvd := promises_rcvd p;
           last_accepted_id := last_accepted_id p;
           proposed_value := proposed_value p |}
      else
        with_accepts p (<[ proposal_id msg := accepts1 ]> (pending_accepts p))
  | _, _ => p
  end.

Definition with_processed (p : PaxosProposer) (s : gset string) : PaxosProposer :=
  {| node_id := node_id p; running := running p;
     proposer_uid := proposer_uid p; quorum_size := quorum_size p;
     next_proposal_number := next_proposal_number p;
     pending_promises := pending_promises p; timeout := timeout p;
     pending_accepts := pending_accepts p; current_phase := current_phase p;
     proposal_value := proposal_value p;
     processed_messages := s;
     quorum_reached := quorum_reached p;
     current_proposal_id := current_proposal_id p;
     consensus_time := consensus_time p; start_time := start_time p;
     rounds := rounds p; promises_rcvd := promises_rcvd p;
     last_accepted_id := last_accepted_id p;
     proposed_value := proposed_value p |}.

(** What one turn of the processing loop did with the message it took. *)
Inductive Dispatch := Skipped | ToHandlePromise | ToHandleAccepted | NoHandler.

(** What a proposer can be asked to do from outside its own code: calls by
    the driver, timer callbacks, and turns of its processing loop. *)
Inductive ProposerEvent :=
| CallSetProposal (value : string)
| CallPrepare (now : Q)
| CallSendAccept (pid : ProposalID) (value : option string) (now : Q)
| PromiseTimerFires (pid : ProposalID) (now : Q)
| AcceptTimerFires (pid : ProposalID) (now : Q)
| LoopTakes (msg : NetworkMessage) (now : Q)
| Crash.

Section ProposerLoop.

Variable str_pid : ProposalID -> string.

Definition proposer_msg_id (msg : NetworkMessage) : string :=
  sender msg +:+ "-" +:+ msg_type msg +:+ "-" +:+ str_pid (proposal_id msg).

(** The body of the [while] loop of [_process_messages] for a message
    [msg] taken from the queue.  An exception of a handler is caught and
    logged by the loop. *)
Definition process_message (nodes : NodeMap) (now : Q) (p : PaxosProposer)
    (msg : NetworkMessage) : PaxosProposer * list Effect * Dispatch :=
  let msg_id := proposer_msg_id msg in
  if decide (msg_id ∈ processed_messages p) then (p, [], Skipped) else
  let p1 := with_processed p (processed_messages p ∪ {[ msg_id ]}) in
  if decide (msg_type msg = "promise") then
    let '(p2, out, _) := handle_promise nodes now p1 msg in
    (p2, out, ToHandlePromise)
  else if decide (msg_type msg = "accepted") then
    (handle_accepted now p1 msg, [], ToHandleAccepted)
  else (p1, [], NoHandler).

(** One event.  The last component is the message given to
    [handle_promise] or [handle_accepted], if any. *)
Definition proposer_step (nodes : NodeMap) (p : PaxosProposer)
    (ev : ProposerEvent)
  : PaxosProposer * list Effect * option NetworkMessage :=
  match ev with
  | CallSetProposal v => (set_proposal p v, [], None)
  | CallPrepare now => (prepare nodes now p, None)
  | CallSendAccept pid v now => (send_accept nodes now p pid v, None)
  | PromiseTimerFires pid now => (check_promise_timeout nodes now p pid, None)
  | AcceptTimerFires pid now => (check_accept_timeout nodes now p pid, None)
  | LoopTakes msg now =>
      if running p then
        let '(p', out, d) := process_message nodes now p msg in
        (p', out,
         match d with
         | ToHandlePromise | ToHandleAccepted => Some msg
         | Skipped | NoHandler => None
         end)
      else (p, [], None)
  | Crash => (set_running p false, [], None)
  end.

(** A whole history of events: the final state, everything sent or armed,
    and the messages that reached a handler, in order. *)
Fixpoint proposer_run (nodes : NodeMap) (p : PaxosProposer)
    (evs : list ProposerEvent)
  : PaxosProposer * list Effect * list NetworkMessage :=
  match evs with
  | [] => (p, [], [])
  | ev :: rest =>
      let '(p1, out1, h1) := proposer_step nodes p ev in
      let '(p2, out2, h2) := proposer_run nodes p1 rest in
      (p2, out1 ++ out2, from_option (fun m => [m]) [] h1 ++ h2)
  end.

End ProposerLoop.

(** ** The learner *)

(** An entry of [pending_accepted]. *)
Record LearnerRecord := mkLearnerRecord {
  l_count : Z;
  l_value : option string;
  l_received : gset string
}.

Section Learner.

(** The base class [Learner] comes from [paxos.essential], which is not
    among the sources.  Its state is a type parameter, and its method
    [recv_accepted(from_uid, proposal_id, accepted_value)] a function
    that yields the new base state and the [on_resolution] calls it made,
    or [None] when it raises. *)
Variable Base : Type.
Variable recv_accepted :
  Base -> string -> ProposalID -> option string -> option (Base * list Effect).

Record PaxosLearner := mkLearner {
  learner_id : string;
  learner_running : bool;
  learner_quorum_size : Z;
  pending_accepted : gmap ProposalID LearnerRecord;
  learner_base : Base
}.

Definition PaxosLearner_init (node_id : string) (quorum_size : Z) (b : Base)
  : PaxosLearner :=
  mkLearner node_id true quorum_size ∅ b.

(** [PaxosLearner.handle_message(msg)].  The boolean tells whether the
    call raised (in [recv_accepted]); the tally has been updated by then. *)
Definition learner_handle_message (l : PaxosLearner) (msg : NetworkMessage)
  : PaxosLearner * list Effect * bool :=
  if decide (msg_type msg = "accepted") then
    let entry :=
      match pending_accepted l !! proposal_id msg with
      | Some e => e
      | None => mkLearnerRecord 0 (accepted_value msg) ∅
      end in
    let entry1 :=
      mkLearnerRecord (l_count entry + 1) (l_value entry)
        (l_received entry ∪ {[ sender msg ]}) in
    let pending1 := <[ proposal_id msg := entry1 ]> (pending_accepted l) in
    match recv_accepted (learner_base l) (sender msg) (proposal_id msg)
            (accepted_value msg) with
    | None =>
        (mkLearner (learner_id l) (learner_running l) (learner_quorum_size l)
           pending1 (learner_base l), [], true)
    | Some (b, out) =>
        if learner_quorum_size l <=? l_count entry1 then
          (mkLearner (learner_id l) (learner_running l)
             (learner_quorum_size l) (delete (proposal_id msg) pending1) b,
           out ++ [OnResolution (proposal_id msg) (accepted_value msg)],
           false)
        else
          (mkLearner (learner_id l) (learner_running l)
             (learner_quorum_size l) pending1 b, out, false)
    end
  else (l, [], false).

End Learner.

Arguments learner_id {Base} _.
Arguments learner_running {Base} _.
Arguments learner_quorum_size {Base} _.
Arguments pending_accepted {Base} _.
Arguments learner_base {Base} _.
Arguments mkLearner {Base} _ _ _ _ _.
Arguments PaxosLearner_init {Base} _ _ _.
Arguments learner_handle_message {Base} _ _ _.

(** ** The driver *)

(** The node ids the driver creates: [P0..], [A0..], [L0..], registered in
    this order by the constructors. *)
Definition node_names (prefix : string) (n : nat) : list string :=
  (fun i => prefix +:+ pretty i) <$> seq 0 n.

Definition driver_nodes (num_proposers num_acceptors num_learners : nat)
  : NodeMap :=
  let add role net name := register_node net name (mkNodeRef role true) in
  let net0 := NetworkSimulator_init (0, 0)%Q 0%Q in
  let net1 := foldl (add PaxosProposerNode) net0 (node_names "P" num_proposers) in
  let net2 := foldl (add PaxosAcceptorNode) net1 (node_names "A" num_acceptors) in
  let net3 := foldl (add PaxosLearnerNode) net2 (node_names "L" num_learners) in
  nodes net3.

Definition driver_quorum (num_acceptors : nat) : Z :=
  Z.of_nat num_acceptors / 2 + 1.

Definition timeout_limit : Q := 30.

(** The condition of the driver's [while]: [consensus] is what
    [proposers[0].consensus_time] holds when it is read and [now] the clock
    at that moment; [start] is the clock read before the loop. *)
Definition keeps_waiting (start : Q) (consensus : option Q) (now : Q) : bool :=
  match consensus with
  | None => Qltb (now - start) timeout_limit
  | Some _ => false
  end.

(** The number of turns the loop makes over a series of such readings. *)
Fixpoint wait_turns (start : Q) (readings : list (option Q * Q)) : nat :=
  match readings with
  | [] => 0
  | (c, now) :: rest =>
      if keeps_waiting start c now then S (wait_turns start rest) else 0
  end.

(** The tuple [simulate_paxos] returns. *)
Record SimulationResult := mkResult {
  r_timeout_limit : Q;
  r_consensus_before : bool;
  r_consensus_time : option Q;
  r_rounds : Z;
  r_total_retries : Z
}.

(** What [simulate_paxos] does once the loop is left, from the state of
    [proposers[0]] and of the network: compute the tuple, stop the network.
    [None] is the [TypeError] of subtracting a start time that is [None]. *)
Definition simulate_paxos_finish (p0 : PaxosProposer) (net : NetworkSimulator)
  : option (SimulationResult * NetworkSimulator) :=
  let consensus_before := bool_decide (is_Some (consensus_time p0)) in
  let latency : option (option Q) :=
    match consensus_time p0 with
    | None => Some None
    | Some c =>
        match start_time p0 with
        | Some s => Some (Some (c - s)%Q)
        | None => None
        end
    end in
  match latency with
  | None => None
  | Some lat =>
      Some (mkResult timeout_limit consensus_before lat (rounds p0)
              (total_retries net),
            stop net)
  end.

(** The end of [simulate_paxos] over a series of readings of the loop
    condition: the loop first, then the tuple and [network.stop()].  The
    outer [None] says that the loop has not been left within the series;
    [p0] and [net] are [proposers[0]] and the network as the lines after
    the loop find them. *)
Definition simulate_paxos_wait (start : Q) (readings : list (option Q * Q))
    (p0 : PaxosProposer) (net : NetworkSimulator)
  : option (option (SimulationResult * NetworkSimulator)) :=
  if decide (wait_turns start readings < length readings)%nat
  then Some (simulate_paxos_finish p0 net)
  else None.

(** The driver's first steps on [proposers[0]]. *)
Definition simulate_paxos_start (nodes : NodeMap) (num_acceptors : nat)
    (now : Q) : PaxosProposer * list Effect :=
  let p := PaxosProposer_init "P0" (driver_quorum num_acceptors) in
  prepare nodes now (set_start_time (set_proposal p "Initial Value") now).

(** ** A learner's history *)

(** The accepted notifications a learner is handed, one call of
    [handle_message] after the other.  A call that raises ends the delivery
    thread that made it, not the learner: the next call finds the state the
    failed one left. *)
Fixpoint learner_run {Base : Type}
    (recv_accepted : Base -> string -> ProposalID -> option string
                     -> option (Base * list Effect))
    (l : PaxosLearner Base) (msgs : list NetworkMessage)
  : PaxosLearner Base * list Effect :=
  match msgs with
  | [] => (l, [])
  | msg :: rest =>
      let '(l1, out1, _) := learner_handle_message recv_accepted l msg in
      let '(l2, out2) := learner_run recv_accepted l1 rest in
      (l2, out1 ++ out2)
  end.

(** ** Promises in a row *)

(** [handle_promise] on one message after the other, with everything sent
    or armed on the way. *)
Fixpoint handle_promises (nodes : NodeMap) (now : Q) (p : PaxosProposer)
    (msgs : list NetworkMessage) : PaxosProposer * list Effect :=
  match msgs with
  | [] => (p, [])
  | msg :: rest =>
      let '(p1, out1, _) := handle_promise nodes now p msg in
      let '(p2, out2) := handle_promises nodes now p1 rest in
      (p2, out1 ++ out2)
  end.

(** ** The acceptor's sends *)

(** What [PaxosAcceptor] adds to the base class [Acceptor] (which comes from
    [paxos.essential]): its id and run flag, and the two messenger methods
    the base class calls. *)
Record PaxosAcceptor := mkAcceptor {
  acceptor_id : string;
  acceptor_running : bool
}.

(** [send_promise(to_uid, proposal_id, previous_id, accepted_value)] *)
Definition send_promise (a : PaxosAcceptor) (to_uid : string)
    (pid : ProposalID) (prev : option ProposalID) (value : option string)
  : list Effect :=
  if negb (acceptor_running a) then []
  else [SendMessage (mkMsg "promise" (acceptor_id a) to_uid pid prev value false)].

(** [send_accepted(proposal_id, accepted_value)]: one message per registered
    learner or proposer, in the order of [self.network.nodes.items()]. *)
Definition send_accepted (nodes : NodeMap) (a : PaxosAcceptor)
    (pid : ProposalID) (value : option string) : list Effect :=
  (fun kn => SendMessage (mkMsg "accepted" (acceptor_id a) kn.1 pid None value false))
    <$> filter (fun kn => node_role kn.2 = PaxosLearnerNode
                          \/ node_role kn.2 = PaxosProposerNode) nodes.

(** ** The life of a dropped message *)

(** The timer that [send_message] arms on a drop calls [_retry_message],
    which may arm the next one.  [retry_chain] follows these callbacks with
    one draw of [random.random()] per firing, as long as there are draws and
    a timer is armed. *)
Fixpoint retry_chain (net : NetworkSimulator) (msg_id from_node to_node : string)
    (message : NetworkMessage) (attempt : Z) (draws : list Q)
  : NetworkSimulator * list Effect :=
  match draws with
  | [] => (net, [])
  | rnd :: rest =>
      match retry_message net msg_id from_node to_node message attempt rnd with
      | (net', [StartTimer _ (RetryMessage i f t m a)]) =>
          retry_chain net' i f t m a rest
      | (net', out) => (net', out)
      end
  end.

(** ** States, histories and predicates that the statements below use *)

(** A prepare of proposer [P0] on its way to acceptor [A0]. *)
Definition sample_prepare : NetworkMessage :=
  mkMsg "prepare" "P0" "A0" (mkProposalID 2 "P0") None None false.

(** A network in which [A0] is registered and running, with one token in
    flight. *)
Definition sample_net : NetworkSimulator :=
  set_active
    (register_node (NetworkSimulator_init (0, 0)%Q 0%Q) "A0"
       (mkNodeRef PaxosAcceptorNode true))
    {[ "token" ]}.

(** The same network when it loses every second message. *)
Definition lossy_net : NetworkSimulator :=
  {| nodes := nodes sample_net; delay_range := (0, 0)%Q;
     failure_rate := 1 # 2; net_running := true; message_count := 0;
     dropped_messages := 0; max_retries := 3;
     active_messages := {[ "token" ]}; total_retries := 0 |}.

(** The registry of a run with one proposer, three acceptors and one
    learner. *)
Definition three_acceptors : NodeMap := driver_nodes 1 3 1.

(** The first proposer of that run after the driver's [prepare()]. *)
Definition started : PaxosProposer := (simulate_paxos_start three_acceptors 3 0).1.

(** A promise of acceptor [a] that reports no accepted value. *)
Definition promise_from (a : string) (pid : ProposalID) : NetworkMessage :=
  mkMsg "promise" a "P0" pid None None false.

(** The proposer after the promises of [A0] and [A1]: quorum reached,
    [accept] sent. *)
Definition at_quorum : PaxosProposer :=
  (handle_promise three_acceptors 0
     (handle_promise three_acceptors 0 started
        (promise_from "A0" (mkProposalID 2 "P0"))).1.1
     (promise_from "A1" (mkProposalID 2 "P0"))).1.1.

(** The prepare timers of [n] consecutive rounds that all expire: the one of
    proposal number [num], then the one of the proposal made in reaction to
    it, and so on.  Each timeout advances the number by two (once in
    [_check_promise_timeout], once in [prepare]). *)
Fixpoint promise_timer_series (uid : string) (now : Q) (num : Z) (n : nat)
  : list ProposerEvent :=
  match n with
  | O => []
  | S n' =>
      PromiseTimerFires (mkProposalID num uid) now
        :: promise_timer_series uid now (num + 2) n'
  end.

(** A proposer that has just called [prepare()] for number [num] and has
    heard nothing yet. *)
Definition awaiting_promises (num : Z) (p : PaxosProposer) : Prop :=
  running p = true /\
  0 < quorum_size p /\
  next_proposal_number p = num /\
  current_phase p = Some prepare_phase /\
  current_proposal_id p = Some (mkProposalID num (proposer_uid p)) /\
  exists t, pending_promises p !! mkProposalID num (proposer_uid p)
            = Some (mkPromiseRecord 0 t ∅ None 0).

(** A proposer in the accept phase for [pid] with value [v], short of its
    quorum of accepted responses and below the retry cap. *)
Definition awaiting_accepted (pid : ProposalID) (v : option string)
    (p : PaxosProposer) : Prop :=
  running p = true /\
  quorum_reached p = true /\
  current_phase p = Some accept_phase /\
  0 < quorum_size p /\
  exists entry, pending_accepts p !! pid = Some entry /\
                a_count entry < quorum_size p /\
                a_retry_count entry + 1 < 3 /\
                a_value entry = v.

(** What stays as it is while accept is re-sent. *)
Definition same_proposal (p q : PaxosProposer) : Prop :=
  node_id q = node_id p /\ timeout q = timeout p /\
  quorum_size q = quorum_size p /\
  next_proposal_number q = next_proposal_number p /\
  current_proposal_id q = current_proposal_id p /\
  pending_promises q = pending_promises p.

(** How a counted promise updates the best prior pair of its record: a
    promise that reports an accepted value replaces the pair if there is
    none yet or if its previous id is greater than the recorded one. *)
Definition updates_best_prior (old : option (option ProposalID * string))
    (msg : NetworkMessage) (new : option (option ProposalID * string)) : Prop :=
  match accepted_value msg, old with
  | None, _ => new = old
  | Some av, None => new = Some (previous_id msg, av)
  | Some av, Some (best_id, _) =>
      (py_gt (previous_id msg) best_id = Some true
       /\ new = Some (previous_id msg, av))
      \/ (py_gt (previous_id msg) best_id = Some false /\ new = old)
  end.

(** The value a proposer puts into [accept]: the one of the best prior
    pair if there is one, its own otherwise. *)
Definition accept_value (best : option (option ProposalID * string))
    (p : PaxosProposer) : option string :=
  match best with
  | Some (_, v) => Some v
  | None => proposal_value p
  end.

(** The proposer of the three-acceptor run after the promise of [A0]. *)
Definition one_promise : PaxosProposer :=
  (handle_promise three_acceptors 0 started
     (promise_from "A0" (mkProposalID 2 "P0"))).1.1.

(** The same proposer when the first prepare has timed out instead: the
    current proposal id is [(4, P0)], and the record of [(2, P0)] is still in
    [pending_promises]. *)
Definition retried : PaxosProposer :=
  (check_promise_timeout three_acceptors 4 started (mkProposalID 2 "P0")).1.

(** That proposer after a late promise of [A0] for the timed-out proposal
    [(2, P0)], which reports that [A0] has accepted ["old"] under proposal
    [(1, P1)]. *)
Definition late_promise : NetworkMessage :=
  mkMsg "promise" "A0" "P0" (mkProposalID 2 "P0")
    (Some (mkProposalID 1 "P1")) (Some "old") false.

Definition after_late_promise : PaxosProposer :=
  (handle_promise three_acceptors 5 retried late_promise).1.1.

(** An accepted notification of acceptor [a] for learner [L0]. *)
Definition accepted_from (a : string) (pid : ProposalID) (v : string)
  : NetworkMessage :=
  mkMsg "accepted" a "L0" pid None (Some v) false.

(** A base class that returns without a resolution of its own (as one does
    that is short of its own quorum). *)
Definition quiet_base (b : unit) (from : string) (pid : ProposalID)
    (v : option string) : option (unit * list Effect) :=
  Some (b, []).

(** The first proposer once two acceptors have answered its accept. *)
Definition decided : PaxosProposer :=
  handle_accepted 2
    (handle_accepted 1 at_quorum
       (mkMsg "accepted" "A0" "P0" (mkProposalID 2 "P0") None
          (Some "Initial Value") false))
    (mkMsg "accepted" "A1" "P0" (mkProposalID 2 "P0") None
       (Some "Initial Value") false).

(** The first proposer when no accepted response ever arrives: its accept
    timer has expired every 4 s, seven times before the driver's limit. *)
Definition timed_out : PaxosProposer :=
  (proposer_run (fun _ => "pid") three_acceptors at_quorum
     ((fun t => AcceptTimerFires (mkProposalID 2 "P0") t)
        <$> [4; 8; 12; 16; 20; 24; 28]%Q)).1.1.

(** The network (one that loses every second message) at the end of a
    run that sent [sent] messages and lost [lost] of them at the first
    try. *)
Definition traffic (sent lost : Z) : NetworkSimulator :=
  {| nodes := three_acceptors; delay_range := (0, 0)%Q; failure_rate := 1 # 2;
     net_running := true; message_count := sent; dropped_messages := lost;
     max_retries := 3; active_messages := ∅; total_retries := 0 |}.

(** Every pending record counts each sender once: its count is the size
    of its received set. *)
Definition counts_match (p : PaxosProposer) : Prop :=
  map_Forall (fun _ e => p_count e = Z.of_nat (size (p_received e)))
    (pending_promises p) /\
  map_Forall (fun _ e => a_count e = Z.of_nat (size (a_received e)))
    (pending_accepts p).

(** The accept phase is entered only with the quorum flag set, and the flag
    is set only with [quorum_size] senders in [promises_rcvd]. *)
Definition quorum_backed (p : PaxosProposer) : Prop :=
  (current_phase p = Some accept_phase -> quorum_reached p = true) /\
  (quorum_reached p = true ->
   quorum_size p <= Z.of_nat (size (promises_rcvd p))).

(** The proposal ids with a pending promise record, and the current one,
    are the proposer's own and not above its proposal number. *)
Definition numbers_in_order (p : PaxosProposer) : Prop :=
  map_Forall (fun pid _ => number pid <= next_proposal_number p
                           /\ uid pid = proposer_uid p)
    (pending_promises p) /\
  (forall pid, current_proposal_id p = Some pid ->
               number pid <= next_proposal_number p
               /\ uid pid = proposer_uid p).

(** * Properties *)

(** ** Auxiliary facts *)

Lemma Qltb_lt (x y : Q) : Qltb x y = true <-> (x < y)%Q.
Proof.
  unfold Qltb. rewrite negb_true_iff, <- not_true_iff_false, Qle_bool_iff.
  split; [apply Qnot_le_lt | apply Qlt_not_le].
Qed.

Lemma Qltb_ge (x y : Q) : Qltb x y = false <-> (y <= x)%Q.
Proof. unfold Qltb. by rewrite negb_false_iff, Qle_bool_iff. Qed.

Lemma Qle_bool_false (x y : Q) : Qle_bool x y = false <-> (y < x)%Q.
Proof.
  rewrite <- not_true_iff_false, Qle_bool_iff.
  split; [apply Qnot_le_lt | apply Qlt_not_le].
Qed.

(** ** The network *)

(** C6.  [_deliver_message] never reads the network's [running] flag: on a
    network that [stop()] has shut down, the handler of a registered receiver
    whose run flag is set is still invoked.  Whether the handler runs depends
    on registration and on the receiver's run flag only, and the token is
    gone from the active set afterwards in every case. *)
Theorem deliver_message_after_stop :
  forall (net : NetworkSimulator) (msg : NetworkMessage) (msg_id : string),
    net_running (stop net) = false /\
    (msg_id ∉ active_messages (deliver_message (stop net) msg msg_id).1) /\
    (msg_id ∉ active_messages (deliver_message net msg msg_id).1) /\
    (deliver_message (stop net) msg msg_id).2 = (deliver_message net msg msg_id).2 /\
    ((deliver_message (stop net) msg msg_id).2 = [HandleMessage (receiver msg) msg]
     <-> exists node, nodes_get (nodes net) (receiver msg) = Some node
                      /\ node_running node = true) /\
    (deliver_message (stop sample_net) sample_prepare "token").2
      = [HandleMessage "A0" sample_prepare].
Proof.
  intros net msg msg_id. unfold deliver_message; simpl.
  split; [done|].
  split; [rewrite elem_of_difference, elem_of_singleton; tauto|].
  split; [rewrite elem_of_difference, elem_of_singleton; tauto|].
  split; [done|]. split; [split|done].
  - destruct (nodes_get (nodes net) (receiver msg)) as [node|] eqn:E; [|done].
    destruct (node_running node) eqn:R; [|done]. eauto.
  - intros (node & -> & ->). done.
Qed.

(** C5, as the code has it.  A drop in [send_message] with retry count [k]
    below [max_retries] arms the retry timer after [min(0.5 * 2^k, 5)]
    seconds; a message dropped again in [_retry_message] at attempt [k]
    (below 3) is re-armed after [min(0.1 * 2^k, 1)] seconds; with a failure
    rate of 1 or more a dropped message arms nothing and its token is
    discarded. *)
Theorem backoff_schedule :
  forall (str_pid : ProposalID -> string) (net : NetworkSimulator)
         (msg : NetworkMessage) (k : Z) (rnd dly : Q)
         (msg_id from_node to_node : string),
    net_running net = true ->
    (0 < failure_rate net)%Q ->
    (rnd < failure_rate net)%Q ->
    ((failure_rate net < 1)%Q -> k < max_retries net ->
     network_msg_id str_pid msg k ∉ active_messages net ->
     (send_message str_pid net msg k rnd dly).2 =
       [StartTimer (Qmin ((1 # 2) * 2 ^ k) 5)
          (RetryMessage (network_msg_id str_pid msg k) (sender msg)
             (receiver msg) (set_dropped msg true) (k + 1))]) /\
    (k < 3 -> msg_id ∈ active_messages net ->
     (retry_message net msg_id from_node to_node msg k rnd).2 =
       [StartTimer (Qmin ((1 # 10) * 2 ^ k) 1)
          (RetryMessage msg_id from_node to_node msg (k + 1))]) /\
    ((1 <= failure_rate net)%Q ->
     (send_message str_pid net msg k rnd dly).2 = [] /\
     (network_msg_id str_pid msg k ∈
        active_messages (send_message str_pid net msg k rnd dly).1 ->
      network_msg_id str_pid msg k ∈ active_messages net)).
Proof.
  intros str_pid net msg k rnd dly msg_id from_node to_node Hrun Hpos Hrnd.
  apply Qltb_lt in Hpos as Hpos'. apply Qltb_lt in Hrnd as Hrnd'.
  split; [|split].
  - intros Hlt Hk Hfresh. unfold send_message.
    rewrite Hrun; simpl. rewrite decide_False by done.
    rewrite Hpos', Hrnd'; simpl.
    apply Qle_bool_false in Hlt. rewrite Hlt.
    apply Z.ltb_lt in Hk. by rewrite Hk.
  - intros Hk Hact. unfold retry_message.
    rewrite Hrun; simpl.
    assert ((3 <=? k) = false) as -> by lia.
    rewrite decide_False by (intros Hn; by apply Hn).
    by rewrite Hrnd'.
  - intros Hge. unfold send_message.
    rewrite Hrun; simpl.
    destruct (decide (network_msg_id str_pid msg k ∈ active_messages net)).
    + simpl. by split.
    + rewrite Hpos', Hrnd'; simpl.
      apply Qle_bool_iff in Hge. rewrite Hge. simpl. split; [done|].
      rewrite elem_of_difference, elem_of_singleton. tauto.
Qed.

Lemma backoff_schedule_witness :
  (send_message (fun _ => "pid") lossy_net sample_prepare 0 (1 # 4) 0).2 =
    [StartTimer (Qmin ((1 # 2) * 2 ^ 0) 5)
       (RetryMessage "P0-A0-prepare-pid-0" "P0" "A0"
          (set_dropped sample_prepare true) 1)] /\
  (retry_message lossy_net "token" "P0" "A0" sample_prepare 1 (1 # 4)).2 =
    [StartTimer (Qmin ((1 # 10) * 2 ^ 1) 1)
       (RetryMessage "token" "P0" "A0" sample_prepare 2)].
Proof.
  split.
  - apply (backoff_schedule (fun _ => "pid") lossy_net sample_prepare 0
             (1 # 4) 0 "token" "P0" "A0");
      try reflexivity; by apply (bool_decide_unpack _).
  - apply (backoff_schedule (fun _ => "pid") lossy_net sample_prepare 1
             (1 # 4) 0 "token" "P0" "A0");
      try reflexivity; by apply (bool_decide_unpack _).
Defined.

(** C5 as stated fails at retry attempt 1: the message dropped again in
    [_retry_message] waits 0.2 s, not [min(0.5 * 2^1, 5) = 1] s. *)
Lemma backoff_retry_counterexample :
  exists delay target,
    (retry_message lossy_net "token" "P0" "A0" sample_prepare 1 (1 # 4)).2
      = [StartTimer delay target] /\
    (delay == 1 # 5)%Q /\
    ~ (delay == Qmin ((1 # 2) * 2 ^ 1) 5)%Q.
Proof.
  eexists _, _. split; [reflexivity|]. split; [reflexivity|].
  intros H. discriminate H.
Qed.

(** ** The proposer: [send_accept] *)

Lemma broadcast_elem (nodes : NodeMap) kind from pid value (to : string) :
  SendMessage (mkMsg kind from to pid None value false)
    ∈ broadcast nodes kind from pid value
  <-> to ∈ acceptor_ids nodes.
Proof.
  unfold broadcast. rewrite list_elem_of_fmap. split.
  - intros (to' & Heq & Hin). by injection Heq as ->.
  - intros Hin. by exists to.
Qed.

(** C7, as the code has it.  [send_accept] does nothing at all when the
    proposer is not running or [quorum_reached] is false.  When the proposer
    runs and [quorum_reached] is true it sets the phase to accept, hands one
    [accept(id, value)] per registered acceptor to the network, replaces the
    pending record of that id by a fresh one (no accepted received, count 0,
    retry count 0) and arms the accept timer. *)
Theorem send_accept_spec :
  forall (nodes : NodeMap) (now : Q) (p : PaxosProposer) (pid : ProposalID)
         (value : option string),
    (running p = false \/ quorum_reached p = false ->
     send_accept nodes now p pid value = (p, [])) /\
    (running p = true -> quorum_reached p = true ->
     current_phase (send_accept nodes now p pid value).1 = Some accept_phase /\
     (send_accept nodes now p pid value).2 =
       broadcast nodes "accept" (node_id p) pid value
         ++ [StartTimer (timeout p) (CheckAcceptTimeout pid)] /\
     (forall to : string,
        to ∈ acceptor_ids nodes <->
        SendMessage (mkMsg "accept" (node_id p) to pid None value false)
          ∈ (send_accept nodes now p pid value).2) /\
     pending_accepts (send_accept nodes now p pid value).1 =
       <[ pid := mkAcceptRecord 0 now ∅ value 0 ]> (pending_accepts p) /\
     pending_promises (send_accept nodes now p pid value).1 = pending_promises p /\
     next_proposal_number (send_accept nodes now p pid value).1
       = next_proposal_number p /\
     rounds (send_accept nodes now p pid value).1 = rounds p).
Proof.
  intros nodes now p pid value. unfold send_accept. split.
  - intros [-> | Hq]; [done|]. rewrite Hq. by destruct (running p).
  - intros -> ->. simpl. repeat split; try done.
    + intros Hin. apply elem_of_app. left. by apply broadcast_elem.
    + intros [Hin | Hin]%elem_of_app; [by apply broadcast_elem in Hin|].
      apply list_elem_of_singleton in Hin. discriminate.
Qed.

Lemma send_accept_spec_witness :
  send_accept three_acceptors 0 started (mkProposalID 2 "P0") (Some "v")
    = (started, []) /\
  (send_accept three_acceptors 5 at_quorum (mkProposalID 2 "P0") (Some "v")).2 =
    broadcast three_acceptors "accept" "P0" (mkProposalID 2 "P0") (Some "v")
      ++ [StartTimer 4 (CheckAcceptTimeout (mkProposalID 2 "P0"))].
Proof.
  split.
  - apply (send_accept_spec three_acceptors 0 started). by right.
  - apply (send_accept_spec three_acceptors 5 at_quorum); reflexivity.
Defined.

(** C7 as stated fails for a proposer that has crashed after reaching its
    promise quorum: [quorum_reached] is true, acceptors are registered, and
    the call (made by the accept timer) sends nothing and arms nothing. *)
Lemma send_accept_crashed_counterexample :
  let p := set_running at_quorum false in
  quorum_reached p = true /\
  acceptor_ids three_acceptors = ["A0"; "A1"; "A2"] /\
  send_accept three_acceptors 5 p (mkProposalID 2 "P0") (Some "v") = (p, []) /\
  pending_accepts p !! mkProposalID 2 "P0"
    = Some (mkAcceptRecord 0 0 ∅ (Some "Initial Value") 0).
Proof. vm_compute. repeat split. Qed.

(** ** What the proposer's methods leave alone *)

(** The fields that only one method writes: [processed_messages] (the
    processing loop) and [start_time] (the first [prepare()]). *)
Ltac crush_method :=
  repeat (simpl in *;
          match goal with
          | |- context [match ?x with _ => _ end] => destruct x
          | |- context [if ?b then _ else _] => destruct b
          end);
  simpl in *; try done.

Lemma prepare_processed nodes now p :
  processed_messages (prepare nodes now p).1 = processed_messages p.
Proof. unfold prepare. crush_method. Qed.

Lemma prepare_start_time nodes now p :
  start_time (prepare nodes now p).1 =
    if running p then Some (default now (start_time p)) else start_time p.
Proof. unfold prepare. destruct (running p); simpl; [|done]. by destruct (start_time p). Qed.

Lemma send_accept_processed nodes now p pid v :
  processed_messages (send_accept nodes now p pid v).1 = processed_messages p.
Proof. unfold send_accept. crush_method. Qed.

Lemma send_accept_start_time nodes now p pid v :
  start_time (send_accept nodes now p pid v).1 = start_time p.
Proof. unfold send_accept. crush_method. Qed.

Lemma check_promise_timeout_processed nodes now p pid :
  processed_messages (check_promise_timeout nodes now p pid).1
    = processed_messages p.
Proof.
  unfold check_promise_timeout.
  destruct (pending_promises p !! pid); [|done].
  destruct (_ <? quorum_size p); [|done].
  destruct (_ <? 3); [|done]. by rewrite prepare_processed.
Qed.

Lemma check_promise_timeout_start_time nodes now p pid t :
  start_time p = Some t ->
  start_time (check_promise_timeout nodes now p pid).1 = Some t.
Proof.
  intros Ht. unfold check_promise_timeout.
  destruct (pending_promises p !! pid); [|done].
  destruct (_ <? quorum_size p); [|done].
  destruct (_ <? 3); [|done].
  rewrite prepare_start_time. simpl. rewrite Ht. by destruct (running p).
Qed.

Lemma check_accept_timeout_processed nodes now p pid :
  processed_messages (check_accept_timeout nodes now p pid).1
    = processed_messages p.
Proof.
  unfold check_accept_timeout.
  destruct (pending_accepts p !! pid); [|done].
  destruct (_ <? quorum_size p); [|done].
  destruct (_ <? 3).
  - by rewrite send_accept_processed.
  - by rewrite prepare_processed.
Qed.

Lemma check_accept_timeout_start_time nodes now p pid t :
  start_time p = Some t ->
  start_time (check_accept_timeout nodes now p pid).1 = Some t.
Proof.
  intros Ht. unfold check_accept_timeout.
  destruct (pending_accepts p !! pid); [|done].
  destruct (_ <? quorum_size p); [|done].
  destruct (_ <? 3).
  - by rewrite send_accept_start_time.
  - rewrite prepare_start_time. simpl. rewrite Ht. by destruct (running p).
Qed.

Lemma handle_promise_processed nodes now p msg :
  processed_messages (handle_promise nodes now p msg).1.1 = processed_messages p.
Proof.
  unfold handle_promise.
  destruct (pending_promises p !! proposal_id msg) as [promises|]; [|done].
  destruct (current_phase p) as [[]|]; try done.
  destruct (decide _); [done|].
  match goal with |- context [match ?t with Some _ => _ | None => _ end] =>
    destruct t as [best|] end; [|done].
  destruct (_ && _); [|done].
  match goal with |- context [send_accept ?n ?t ?q ?i ?v] =>
    pose proof (send_accept_processed n t q i v) as Hs;
    destruct (send_accept n t q i v) as [p2 out] end.
  simpl in *. done.
Qed.

Lemma handle_promise_start_time nodes now p msg :
  start_time (handle_promise nodes now p msg).1.1 = start_time p.
Proof.
  unfold handle_promise.
  destruct (pending_promises p !! proposal_id msg) as [promises|]; [|done].
  destruct (current_phase p) as [[]|]; try done.
  destruct (decide _); [done|].
  match goal with |- context [match ?t with Some _ => _ | None => _ end] =>
    destruct t as [best|] end; [|done].
  destruct (_ && _); [|done].
  match goal with |- context [send_accept ?n ?t ?q ?i ?v] =>
    pose proof (send_accept_start_time n t q i v) as Hs;
    destruct (send_accept n t q i v) as [p2 out] end.
  simpl in *. done.
Qed.

Lemma handle_accepted_processed now p msg :
  processed_messages (handle_accepted now p msg) = processed_messages p.
Proof. unfold handle_accepted. crush_method. Qed.

Lemma handle_accepted_start_time now p msg :
  start_time (handle_accepted now p msg) = start_time p.
Proof. unfold handle_accepted. crush_method. Qed.

Section ProposerHistory.

Variable str_pid : ProposalID -> string.
Variable nodes : NodeMap.

Local Abbreviation msg_key := (proposer_msg_id str_pid).
Local Abbreviation step := (proposer_step str_pid nodes).
Local Abbreviation run := (proposer_run str_pid nodes).

(** Messages of the same sender, kind and proposal id get the same key. *)
Lemma same_triple_same_key (m1 m2 : NetworkMessage) :
  sender m1 = sender m2 -> msg_type m1 = msg_type m2 ->
  proposal_id m1 = proposal_id m2 -> msg_key m1 = msg_key m2.
Proof. unfold proposer_msg_id. by intros -> -> ->. Qed.

Lemma process_message_skips now p msg :
  msg_key msg ∈ processed_messages p ->
  process_message str_pid nodes now p msg = (p, [], Skipped).
Proof. intros Hin. unfold process_message. by rewrite decide_True. Qed.

Lemma process_message_processed now p msg :
  processed_messages (process_message str_pid nodes now p msg).1.1 =
    if decide (msg_key msg ∈ processed_messages p) then processed_messages p
    else processed_messages p ∪ {[ msg_key msg ]}.
Proof.
  unfold process_message. destruct (decide _); [done|].
  destruct (decide (msg_type msg = "promise")).
  - match goal with |- context [handle_promise ?n ?t ?q ?m] =>
      pose proof (handle_promise_processed n t q m) as Hs;
      destruct (handle_promise n t q m) as [[p2 out] r] end.
    simpl in *. done.
  - destruct (decide _); simpl; [|done]. by rewrite handle_accepted_processed.
Qed.

Lemma process_message_handled now p msg :
  (process_message str_pid nodes now p msg).2 ≠ Skipped ->
  msg_key msg ∉ processed_messages p.
Proof.
  unfold process_message. destruct (decide _); [done|]. done.
Qed.

Lemma process_message_start_time now p msg :
  start_time (process_message str_pid nodes now p msg).1.1 = start_time p.
Proof.
  unfold process_message. destruct (decide _); [done|].
  destruct (decide (msg_type msg = "promise")).
  - match goal with |- context [handle_promise ?n ?t ?q ?m] =>
      pose proof (handle_promise_start_time n t q m) as Hs;
      destruct (handle_promise n t q m) as [[p2 out] r] end.
    simpl in *. done.
  - destruct (decide _); simpl; [|done]. by rewrite handle_accepted_start_time.
Qed.

(** One event never removes a key, and a message it hands to a handler
    was not keyed before and is keyed after. *)
Lemma step_processed p ev :
  processed_messages p ⊆ processed_messages (step p ev).1.1 /\
  forall m, (step p ev).2 = Some m ->
            (msg_key m ∉ processed_messages p) /\
            msg_key m ∈ processed_messages (step p ev).1.1.
Proof.
  destruct ev as [v|now|pid v now|pid now|pid now|msg now|]; simpl;
    try (split; [|done]).
  - done.
  - by rewrite prepare_processed.
  - by rewrite send_accept_processed.
  - by rewrite check_promise_timeout_processed.
  - by rewrite check_accept_timeout_processed.
  - destruct (running p); [|by split].
    pose proof (process_message_processed now p msg) as Hp.
    pose proof (process_message_handled now p msg) as Hh.
    destruct (process_message str_pid nodes now p msg) as [[p' out] d].
    simpl in *. split.
    + rewrite Hp. destruct (decide _); [done|]. apply union_subseteq_l.
    + intros m Hm.
      assert (m = msg /\ d ≠ Skipped) as [-> Hd].
      { destruct d; try done; by injection Hm as ->. }
      specialize (Hh Hd). split; [done|].
      rewrite Hp, decide_False by done.
      apply elem_of_union_r. by apply elem_of_singleton.
  - done.
Qed.

Lemma step_start_time p ev t :
  start_time p = Some t -> start_time (step p ev).1.1 = Some t.
Proof.
  intros Ht.
  destruct ev as [v|now|pid v now|pid now|pid now|msg now|]; simpl; try done.
  - rewrite prepare_start_time, Ht. by destruct (running p).
  - by rewrite send_accept_start_time.
  - by apply check_promise_timeout_start_time.
  - by apply check_accept_timeout_start_time.
  - destruct (running p); [|done].
    pose proof (process_message_start_time now p msg) as Hp.
    destruct (process_message str_pid nodes now p msg) as [[p' out] d].
    simpl in *. by rewrite Hp.
Qed.

Lemma run_cons p ev evs :
  run p (ev :: evs) =
    ((run (step p ev).1.1 evs).1.1,
     (step p ev).1.2 ++ (run (step p ev).1.1 evs).1.2,
     from_option (fun m => [m]) [] (step p ev).2
       ++ (run (step p ev).1.1 evs).2).
Proof.
  simpl. destruct (step p ev) as [[p1 out1] h1].
  simpl. by destruct (run p1 evs) as [[p2 out2] h2].
Qed.

Lemma run_start_time p evs t :
  start_time p = Some t -> start_time (run p evs).1.1 = Some t.
Proof.
  revert p. induction evs as [|ev evs IH]; intros p Ht; [done|].
  rewrite run_cons. simpl. apply IH. by apply step_start_time.
Qed.

(** Over a whole history: keys only accumulate, and the messages that
    reached a handler have pairwise different keys, none of them present
    at the beginning and all of them present at the end. *)
Lemma run_processed p evs :
  processed_messages p ⊆ processed_messages (run p evs).1.1 /\
  NoDup (msg_key <$> (run p evs).2) /\
  forall m, m ∈ (run p evs).2 ->
            (msg_key m ∉ processed_messages p) /\
            msg_key m ∈ processed_messages (run p evs).1.1.
Proof.
  revert p. induction evs as [|ev evs IH]; intros p.
  - simpl. split; [done|]. split; [constructor|]. intros m Hm. inversion Hm.
  - rewrite run_cons. simpl.
    destruct (step_processed p ev) as [Hsub Hh].
    destruct (IH (step p ev).1.1) as (Hsub' & Hnd & Hin).
    destruct ((step p ev).2) as [m0|] eqn:E; simpl.
    + destruct (Hh m0 eq_refl) as [Hnot Hnow].
      split; [by etrans|]. split.
      * constructor; [|done].
        intros (m & Hk & Hm)%list_elem_of_fmap.
        destruct (Hin m Hm) as [Hm1 _]. apply Hm1. by rewrite <- Hk.
      * intros m [->|Hm]%elem_of_cons.
        -- split; [done|]. by apply Hsub'.
        -- destruct (Hin m Hm) as [Hm1 Hm2]. split; [|done].
           intros Hc. apply Hm1. by apply Hsub.
    + split; [by etrans|]. split; [done|].
      intros m Hm. destruct (Hin m Hm) as [Hm1 Hm2]. split; [|done].
      intros Hc. apply Hm1. by apply Hsub.
Qed.

End ProposerHistory.

(** ** The proposer: duplicate suppression in the processing loop *)

(** C9.  Over any history of a proposer (calls, timer callbacks, turns of the
    processing loop, in any order), no two messages that reached
    [handle_promise] or [handle_accepted] have the same sender, kind and
    proposal id; and once a message has reached a handler, a later turn of
    the loop on a message with the same three fields changes nothing, sends
    nothing and calls no handler, whatever happened in between. *)
Theorem one_message_per_triple :
  forall (str_pid : ProposalID -> string) (nodes : NodeMap)
         (p : PaxosProposer) (evs : list ProposerEvent),
    let final := (proposer_run str_pid nodes p evs).1.1 in
    let handled := (proposer_run str_pid nodes p evs).2 in
    (forall (i j : nat) (m1 m2 : NetworkMessage),
        handled !! i = Some m1 -> handled !! j = Some m2 ->
        sender m1 = sender m2 -> msg_type m1 = msg_type m2 ->
        proposal_id m1 = proposal_id m2 -> i = j) /\
    (forall (m m' : NetworkMessage) (now : Q),
        m ∈ handled ->
        sender m' = sender m -> msg_type m' = msg_type m ->
        proposal_id m' = proposal_id m ->
        proposer_step str_pid nodes final (LoopTakes m' now) = (final, [], None)).
Proof.
  intros str_pid nodes p evs final handled.
  destruct (run_processed str_pid nodes p evs) as (_ & Hnd & Hin).
  fold handled in Hnd, Hin. fold final in Hin. split.
  - intros i j m1 m2 Hi Hj Hs Ht Hp.
    apply (NoDup_lookup _ i j (proposer_msg_id str_pid m1) Hnd).
    + by rewrite list_lookup_fmap, Hi.
    + rewrite list_lookup_fmap, Hj. simpl. f_equal.
      symmetry. by apply same_triple_same_key.
  - intros m m' now Hm Hs Ht Hp. simpl.
    destruct (running final); [|done].
    rewrite process_message_skips; [done|].
    rewrite (same_triple_same_key str_pid m' m) by done.
    by apply Hin.
Qed.

(** A re-reply of acceptor [A0] to the same prepare is skipped. *)
Lemma one_message_per_triple_witness :
  let m := promise_from "A0" (mkProposalID 2 "P0") in
  let final :=
    (proposer_run (fun _ => "pid") three_acceptors started [LoopTakes m 1]).1.1 in
  proposer_step (fun _ => "pid") three_acceptors final (LoopTakes m 2)
    = (final, [], None).
Proof.
  intros m final.
  pose proof (one_message_per_triple (fun _ => "pid") three_acceptors started
                [LoopTakes m 1]) as H.
  cbv zeta in H. destruct H as [_ H].
  apply (H m m 2%Q); try reflexivity.
  vm_compute. apply list_elem_of_here.
Defined.

(** ** The proposer: the start of the latency measurement *)

(** C10.  The [prepare()] that the driver calls first leaves [start_time] at
    the value the driver wrote, or writes its own clock reading if there was
    none; nothing that happens afterwards (later [prepare()] calls by the
    timeout checks included) changes it, so the latency the driver reports is
    [consensus_time] minus that first value. *)
Theorem start_time_set_once :
  forall (str_pid : ProposalID -> string) (nodes : NodeMap)
         (p : PaxosProposer) (now : Q) (evs : list ProposerEvent),
    running p = true ->
    let first := (prepare nodes now p).1 in
    let final := (proposer_run str_pid nodes first evs).1.1 in
    start_time first = Some (default now (start_time p)) /\
    start_time final = start_time first /\
    (forall later : Q,
        start_time (prepare nodes later final).1 = start_time first) /\
    (forall (net : NetworkSimulator) (c : Q),
        consensus_time final = Some c ->
        fst <$> simulate_paxos_finish final net =
          Some (mkResult timeout_limit true
                  (Some (c - default now (start_time p))%Q)
                  (rounds final) (total_retries net))).
Proof.
  intros str_pid nodes p now evs Hrun first final.
  assert (start_time first = Some (default now (start_time p))) as Hfirst.
  { unfold first. by rewrite prepare_start_time, Hrun. }
  assert (start_time final = Some (default now (start_time p))) as Hfinal.
  { unfold final. by apply run_start_time. }
  split; [done|]. split; [congruence|]. split.
  - intros later. rewrite prepare_start_time, Hfinal, Hfirst.
    by destruct (running final).
  - intros net c Hc. unfold simulate_paxos_finish.
    by rewrite Hc, Hfinal.
Qed.

Lemma start_time_set_once_witness :
  let p := set_proposal (PaxosProposer_init "P0" 2) "v" in
  let first := (prepare three_acceptors 10 p).1 in
  let final :=
    (proposer_run (fun _ => "pid") three_acceptors first
       [PromiseTimerFires (mkProposalID 2 "P0") 14;
        PromiseTimerFires (mkProposalID 4 "P0") 18]).1.1 in
  start_time first = Some 10%Q /\ start_time final = start_time first.
Proof.
  intros p first final.
  destruct (start_time_set_once (fun _ => "pid") three_acceptors p 10
              [PromiseTimerFires (mkProposalID 2 "P0") 14;
               PromiseTimerFires (mkProposalID 4 "P0") 18] eq_refl)
    as (H1 & H2 & _).
  split; [exact H1 | exact H2].
Defined.

(** ** The proposer: timeouts *)

Lemma prepare_awaiting nodes now p :
  running p = true -> 0 < quorum_size p ->
  awaiting_promises (next_proposal_number p + 1) (prepare nodes now p).1 /\
  proposer_uid (prepare nodes now p).1 = proposer_uid p /\
  rounds (prepare nodes now p).1 = rounds p + 1 /\
  (prepare nodes now p).2 =
    broadcast nodes "prepare" (node_id p)
      (mkProposalID (next_proposal_number p + 1) (proposer_uid p)) None
    ++ [StartTimer (timeout p)
          (CheckPromiseTimeout
             (mkProposalID (next_proposal_number p + 1) (proposer_uid p)))].
Proof.
  intros Hrun Hq. unfold prepare, awaiting_promises. rewrite Hrun. simpl.
  repeat split; try done.
  exists now. by rewrite lookup_insert_eq.
Qed.

Lemma promise_timeout_retries nodes now num p :
  awaiting_promises num p ->
  awaiting_promises (num + 2) (check_promise_timeout nodes now p
                                 (mkProposalID num (proposer_uid p))).1 /\
  proposer_uid (check_promise_timeout nodes now p
                  (mkProposalID num (proposer_uid p))).1 = proposer_uid p /\
  rounds (check_promise_timeout nodes now p
            (mkProposalID num (proposer_uid p))).1 = rounds p + 1.
Proof.
  intros (Hrun & Hq & Hnum & Hph & Hid & t & Hrec). subst num.
  unfold check_promise_timeout. rewrite Hrec. simpl.
  assert ((0 <? quorum_size p) = true) as -> by lia.
  simpl.
  match goal with |- context [prepare nodes now ?q] =>
    destruct (prepare_awaiting nodes now q) as (Ha & Hu & Hr & _); [done..|]
  end.
  simpl in *.
  replace (next_proposal_number p + 1 + 1)
    with (next_proposal_number p + 2) in Ha by lia.
  done.
Qed.

(** C4.  The retry counter that [_check_promise_timeout] compares with 3
    lives in the pending record of the proposal id whose timer fired, and
    every retry makes a new id with a new record whose counter is 0.  So a
    running proposer that hears nothing retries on every expiry, each time
    with a higher proposal number, and never gives up: after any number [n]
    of consecutive expiries it is still in the prepare phase, at round
    [1 + n]. *)
Theorem promise_timeouts_never_give_up :
  forall (str_pid : ProposalID -> string) (nodes : NodeMap)
         (p : PaxosProposer) (now : Q) (n : nat),
    running p = true ->
    0 < quorum_size p ->
    let first := (prepare nodes now p).1 in
    let series :=
      promise_timer_series (proposer_uid p) now (next_proposal_number p + 1) n in
    let final := (proposer_run str_pid nodes first series).1.1 in
    current_phase final = Some prepare_phase /\
    current_proposal_id final =
      Some (mkProposalID (next_proposal_number p + 1 + 2 * Z.of_nat n)
                         (proposer_uid p)) /\
    is_Some (pending_promises final
               !! mkProposalID (next_proposal_number p + 1 + 2 * Z.of_nat n)
                               (proposer_uid p)) /\
    rounds final = rounds p + 1 + Z.of_nat n.
Proof.
  intros str_pid nodes p now n Hrun Hq first series final.
  destruct (prepare_awaiting nodes now p Hrun Hq) as (Ha & Hu & Hr & _).
  fold first in Ha, Hu, Hr.
  assert (forall k num q,
             awaiting_promises num q ->
             let q' := (proposer_run str_pid nodes q
                          (promise_timer_series (proposer_uid q) now num k)).1.1 in
             awaiting_promises (num + 2 * Z.of_nat k) q' /\
             proposer_uid q' = proposer_uid q /\
             rounds q' = rounds q + Z.of_nat k) as Hgen.
  { induction k as [|k IH]; intros num q Hq0.
    - simpl. replace (num + 2 * Z.of_nat 0) with num by lia.
      split; [done|]. split; [done|lia].
    - cbn [promise_timer_series]. rewrite run_cons. cbn [proposer_step fst snd].
      destruct (promise_timeout_retries nodes now num q Hq0) as (Hq1 & Hu1 & Hr1).
      specialize (IH (num + 2) _ Hq1). rewrite Hu1 in IH. cbv zeta in IH.
      destruct IH as (IH1 & IH2 & IH3).
      replace (num + 2 * Z.of_nat (S k)) with (num + 2 + 2 * Z.of_nat k) by lia.
      split; [done|]. split; [done|]. rewrite IH3, Hr1. lia. }
  specialize (Hgen n (next_proposal_number p + 1) first Ha).
  rewrite Hu in Hgen. cbv zeta in Hgen. fold series in Hgen. fold final in Hgen.
  destruct Hgen as ((_ & _ & _ & Hph & Hid & t & Hrec) & Hu' & Hr').
  rewrite Hu' in Hid, Hrec. rewrite Hrec.
  split; [done|]. split; [done|]. split; [by eexists|]. lia.
Qed.

(** Five expiries in a row, two more than the cap of three retries. *)
Lemma promise_timeouts_never_give_up_witness :
  let p := set_proposal (PaxosProposer_init "P0" 2) "v" in
  let final :=
    (proposer_run (fun _ => "pid") three_acceptors
       (prepare three_acceptors 0 p).1
       (promise_timer_series "P0" 0 2 5)).1.1 in
  current_phase final = Some prepare_phase /\
  current_proposal_id final = Some (mkProposalID 12 "P0").
Proof.
  intros p final.
  pose proof (promise_timeouts_never_give_up (fun _ => "pid") three_acceptors
                p 0 5 eq_refl eq_refl) as H.
  cbv zeta in H. destruct H as (H1 & H2 & _).
  split; [exact H1 | exact H2].
Defined.

Lemma accept_timeout_resends nodes now pid v p :
  awaiting_accepted pid v p ->
  awaiting_accepted pid v (check_accept_timeout nodes now p pid).1 /\
  same_proposal p (check_accept_timeout nodes now p pid).1 /\
  rounds (check_accept_timeout nodes now p pid).1 = rounds p + 1 /\
  pending_accepts (check_accept_timeout nodes now p pid).1 !! pid
    = Some (mkAcceptRecord 0 now ∅ v 0) /\
  (check_accept_timeout nodes now p pid).2 =
    broadcast nodes "accept" (node_id p) pid v
      ++ [StartTimer (timeout p) (CheckAcceptTimeout pid)].
Proof.
  intros (Hrun & Hqr & Hph & Hq & entry & Hrec & Hcnt & Hretry & Hv).
  unfold check_accept_timeout. rewrite Hrec.
  assert ((a_count entry <? quorum_size p) = true) as -> by lia.
  assert ((a_retry_count entry + 1 <? 3) = true) as -> by lia.
  unfold send_accept. simpl. rewrite Hrun, Hqr. simpl. rewrite Hv.
  unfold awaiting_accepted, same_proposal. simpl.
  rewrite lookup_insert_eq.
  repeat split; try done.
  eexists. split; [done|]. simpl. repeat split; (done || lia).
Qed.

(** C3.  [send_accept], through which [_check_accept_timeout] re-sends,
    replaces the pending record by a fresh one whose retry counter is 0.  So
    the counter that is compared with 3 never gets past 1: a running
    proposer short of its accept quorum re-sends [accept] with the same id
    and value on every expiry, however many there are, and the branch that
    returns to [prepare()] with a higher proposal number is never taken. *)
Theorem accept_timeouts_never_escalate :
  forall (str_pid : ProposalID -> string) (nodes : NodeMap)
         (p : PaxosProposer) (pid : ProposalID) (v : option string)
         (now : Q) (n : nat),
    awaiting_accepted pid v p ->
    let history :=
      proposer_run str_pid nodes p (replicate n (AcceptTimerFires pid now)) in
    let final := history.1.1 in
    current_phase final = Some accept_phase /\
    next_proposal_number final = next_proposal_number p /\
    current_proposal_id final = current_proposal_id p /\
    rounds final = rounds p + Z.of_nat n /\
    (exists entry, pending_accepts final !! pid = Some entry /\
                   a_value entry = v /\ a_retry_count entry + 1 < 3) /\
    history.1.2 =
      mjoin (replicate n
               (broadcast nodes "accept" (node_id p) pid v
                  ++ [StartTimer (timeout p) (CheckAcceptTimeout pid)])).
Proof.
  intros str_pid nodes p pid v now n. revert p.
  induction n as [|n IH]; intros p Hp history final.
  - destruct Hp as (Hrun & Hqr & Hph & Hq & entry & Hrec & Hcnt & Hretry & Hv).
    subst history final. simpl.
    repeat split; try done; [lia|]. by exists entry.
  - subst history final. cbn [replicate]. rewrite run_cons.
    cbn [proposer_step fst snd].
    destruct (accept_timeout_resends nodes now pid v p Hp)
      as (Hp' & (Hn & Ht & Hqs & Hnum & Hid & Hpp) & Hr & Hrec & Hout).
    specialize (IH _ Hp'). cbv zeta in IH.
    destruct IH as (IH1 & IH2 & IH3 & IH4 & IH5 & IH6).
    split; [done|]. split; [congruence|]. split; [congruence|].
    split; [rewrite IH4, Hr; lia|]. split; [done|].
    rewrite IH6, Hout, Hn, Ht. done.
Qed.

(** Five expiries of the accept timer after the promise quorum, no accepted
    response in between. *)
Lemma accept_timeouts_never_escalate_witness :
  let history :=
    proposer_run (fun _ => "pid") three_acceptors at_quorum
      (replicate 5 (AcceptTimerFires (mkProposalID 2 "P0") 0)) in
  current_phase history.1.1 = Some accept_phase /\
  next_proposal_number history.1.1 = 2 /\
  rounds history.1.1 = 6.
Proof.
  intros history.
  assert (awaiting_accepted (mkProposalID 2 "P0") (Some "Initial Value")
            at_quorum) as Hp.
  { repeat split; try reflexivity.
    exists (mkAcceptRecord 0 0 ∅ (Some "Initial Value") 0).
    repeat split; reflexivity. }
  pose proof (accept_timeouts_never_escalate (fun _ => "pid") three_acceptors
                at_quorum (mkProposalID 2 "P0") (Some "Initial Value") 0 5 Hp)
    as H.
  cbv zeta in H. destruct H as (H1 & H2 & _ & H4 & _).
  split; [exact H1|]. split; [exact H2 | exact H4].
Defined.

(** ** The proposer: promises *)

(** One call of [handle_promise].  A promise is counted only if the phase is
    prepare, [pending_promises] holds a record for the promise's proposal id
    and the sender is not in that record's received set.  A counted promise
    (from a running proposer's point of view, with comparable ids) adds the
    sender to the record and to [promises_rcvd]; when [promises_rcvd] then
    has [quorum_size] members and [quorum_reached] is not yet set, the
    proposer sets it, sends [accept] for the promise's proposal id to every
    acceptor with the best prior value of the record or else its own value,
    and drops the record. *)
Theorem handle_promise_spec :
  forall (nodes : NodeMap) (now : Q) (p : PaxosProposer) (msg : NetworkMessage),
    (handle_promise nodes now p msg <> (p, [], false) ->
     current_phase p = Some prepare_phase /\
     exists entry, pending_promises p !! proposal_id msg = Some entry /\
                   sender msg ∉ p_received entry) /\
    (forall entry best,
        running p = true ->
        current_phase p = Some prepare_phase ->
        pending_promises p !! proposal_id msg = Some entry ->
        sender msg ∉ p_received entry ->
        updates_best_prior (p_value entry) msg best ->
        let p' := (handle_promise nodes now p msg).1.1 in
        let out := (handle_promise nodes now p msg).1.2 in
        promises_rcvd p' = promises_rcvd p ∪ {[ sender msg ]} /\
        if decide (quorum_size p <= Z.of_nat (size (promises_rcvd p ∪ {[ sender msg ]}))
                   /\ quorum_reached p = false)
        then
          quorum_reached p' = true /\
          current_phase p' = Some accept_phase /\
          out = broadcast nodes "accept" (node_id p) (proposal_id msg)
                  (accept_value best p)
                ++ [StartTimer (timeout p) (CheckAcceptTimeout (proposal_id msg))] /\
          pending_promises p' !! proposal_id msg = None
        else
          quorum_reached p' = quorum_reached p /\
          current_phase p' = Some prepare_phase /\
          out = [] /\
          pending_promises p' !! proposal_id msg =
            Some (mkPromiseRecord (p_count entry + 1) (p_start_time entry)
                    (p_received entry ∪ {[ sender msg ]}) best
                    (p_retry_count entry))).
Proof.
  intros nodes now p msg. split.
  - unfold handle_promise.
    destruct (pending_promises p !! proposal_id msg) as [entry|]; [|done].
    destruct (current_phase p) as [[]|]; try done.
    destruct (decide (sender msg ∈ p_received entry)); [done|].
    intros _. split; [done|]. by exists entry.
  - intros entry best Hrun Hph Hrec Hnew Hbest p' out. subst p' out.
    unfold handle_promise. rewrite Hrec, Hph.
    rewrite decide_False by done. cbn [p_value p_count p_start_time
                                       p_received p_retry_count].
    assert (match accepted_value msg with
            | None => Some (p_value entry)
            | Some av =>
                match p_value entry with
                | None => Some (Some (previous_id msg, av))
                | Some (best_id, _) =>
                    match py_gt (previous_id msg) best_id with
                    | None => None
                    | Some true => Some (Some (previous_id msg, av))
                    | Some false => Some (p_value entry)
                    end
                end
            end = Some best) as ->.
    { unfold updates_best_prior in Hbest.
      destruct (accepted_value msg) as [av|]; [|by subst].
      destruct (p_value entry) as [[best_id bv]|]; [|by subst].
      destruct Hbest as [[-> ->] | [-> ->]]; done. }
    destruct (decide (quorum_size p <= Z.of_nat (size (promises_rcvd p ∪ {[sender msg]}))
                      /\ quorum_reached p = false)) as [[Hq Hqr] | Hno].
    + assert ((quorum_size p <=? Z.of_nat (size (promises_rcvd p ∪ {[sender msg]})))
              && negb (quorum_reached p) = true) as ->.
      { rewrite Hqr. simpl. rewrite andb_true_r. lia. }
      unfold send_accept. simpl. rewrite Hrun. simpl.
      rewrite lookup_delete_eq. done.
    + assert ((quorum_size p <=? Z.of_nat (size (promises_rcvd p ∪ {[sender msg]})))
              && negb (quorum_reached p) = false) as ->.
      { apply andb_false_iff.
        destruct (quorum_reached p) eqn:Hqr; [by right|]. left.
        apply Z.leb_gt. apply Z.nle_gt. intros Hle. apply Hno. done. }
      simpl. rewrite lookup_insert_eq. done.
Qed.

Lemma handle_promise_spec_witness :
  let m := promise_from "A1" (mkProposalID 2 "P0") in
  quorum_reached (handle_promise three_acceptors 1 one_promise m).1.1 = true /\
  (handle_promise three_acceptors 1 one_promise m).1.2 =
    broadcast three_acceptors "accept" "P0" (mkProposalID 2 "P0")
      (Some "Initial Value")
    ++ [StartTimer 4 (CheckAcceptTimeout (mkProposalID 2 "P0"))].
Proof.
  intros m.
  destruct (handle_promise_spec three_acceptors 1 one_promise m) as [_ H].
  specialize (H (mkPromiseRecord 1 0 {[ "A0" ]} None 0) None
                eq_refl eq_refl eq_refl).
  cbv zeta in H.
  destruct H as [_ H].
  - by apply (bool_decide_unpack _).
  - reflexivity.
  - destruct (decide _) as [_ | Hn].
    + destruct H as (H1 & _ & H3 & _). split; [exact H1 | exact H3].
    + exfalso. apply Hn. split; [|reflexivity]. vm_compute. discriminate.
Defined.

(** Late promises are counted: in the prepare phase of
    proposal [(4, P0)] the promises for the timed-out proposal [(2, P0)] are
    counted, and the second one makes the proposer send [accept] for
    [(2, P0)], which is not its current proposal id. *)
Lemma stale_promise_counterexample :
  let late1 := promise_from "A0" (mkProposalID 2 "P0") in
  let late2 := promise_from "A1" (mkProposalID 2 "P0") in
  let p1 := (handle_promise three_acceptors 5 retried late1).1.1 in
  let p2 := (handle_promise three_acceptors 6 p1 late2).1.1 in
  current_phase retried = Some prepare_phase /\
  current_proposal_id retried = Some (mkProposalID 4 "P0") /\
  proposal_id late1 <> mkProposalID 4 "P0" /\
  promises_rcvd retried = ∅ /\
  promises_rcvd p1 = {[ "A0" ]} /\
  p_count <$> pending_promises p1 !! mkProposalID 2 "P0" = Some 1 /\
  quorum_reached p2 = true /\
  current_proposal_id p2 = Some (mkProposalID 4 "P0") /\
  (handle_promise three_acceptors 6 p1 late2).1.2 =
    broadcast three_acceptors "accept" "P0" (mkProposalID 2 "P0")
      (Some "Initial Value")
    ++ [StartTimer 4 (CheckAcceptTimeout (mkProposalID 2 "P0"))].
Proof. vm_compute. repeat split; discriminate. Qed.

(** C2.  [handle_promise] takes the quorum from [promises_rcvd], which
    pools the senders counted for every proposal id since the last
    [prepare()], and the value from the record of the promise's own id.  So
    a promise for a proposal id whose own record is still short of
    [quorum_size] completes the "quorum" as soon as the pooled set is large
    enough, and the proposer sends [accept] for that id with its own value
    when that record holds no prior value, whatever prior values the
    promises counted under other ids have reported. *)
Theorem promise_quorum_pools_proposal_ids :
  forall (nodes : NodeMap) (now : Q) (p : PaxosProposer) (msg : NetworkMessage)
         (entry : PromiseRecord),
    running p = true ->
    current_phase p = Some prepare_phase ->
    quorum_reached p = false ->
    pending_promises p !! proposal_id msg = Some entry ->
    sender msg ∉ p_received entry ->
    p_count entry + 1 < quorum_size p ->
    quorum_size p <= Z.of_nat (size (promises_rcvd p ∪ {[ sender msg ]})) ->
    p_value entry = None ->
    accepted_value msg = None ->
    quorum_reached (handle_promise nodes now p msg).1.1 = true /\
    current_phase (handle_promise nodes now p msg).1.1 = Some accept_phase /\
    (handle_promise nodes now p msg).1.2 =
      broadcast nodes "accept" (node_id p) (proposal_id msg) (proposal_value p)
        ++ [StartTimer (timeout p) (CheckAcceptTimeout (proposal_id msg))] /\
    pending_accepts (handle_promise nodes now p msg).1.1 !! proposal_id msg
      = Some (mkAcceptRecord 0 now ∅ (proposal_value p) 0).
Proof.
  intros nodes now p msg entry Hrun Hph Hqr Hrec Hnew Hshort Hpool Hval Hnone.
  unfold handle_promise. rewrite Hrec, Hph.
  rewrite decide_False by done.
  cbn [p_value p_count p_start_time p_received p_retry_count].
  rewrite Hnone, Hval.
  assert ((quorum_size p <=? Z.of_nat (size (promises_rcvd p ∪ {[sender msg]})))
          && negb (quorum_reached p) = true) as ->.
  { rewrite Hqr. simpl. rewrite andb_true_r. lia. }
  unfold send_accept. cbn [running quorum_reached negb]. rewrite Hrun.
  cbn [negb]. cbn -[broadcast].
  by rewrite lookup_insert_eq.
Qed.

(** The failing run: the first prepare has timed out, so the current
    proposal is [(4, P0)]; the late promise of [A0] for [(2, P0)], which
    reports the accepted value ["old"], is counted; the promise of [A1] for
    [(4, P0)] is then the only one for that id (quorum size 2), and the
    proposer sends [accept((4, P0), "Initial Value")]. *)
Lemma promise_quorum_pools_proposal_ids_witness :
  let m := promise_from "A1" (mkProposalID 4 "P0") in
  current_proposal_id after_late_promise = Some (mkProposalID 4 "P0") /\
  quorum_size after_late_promise = 2 /\
  promises_rcvd after_late_promise = {[ "A0" ]} /\
  p_value <$> pending_promises after_late_promise !! mkProposalID 2 "P0"
    = Some (Some (Some (mkProposalID 1 "P1"), "old")) /\
  p_count <$> pending_promises after_late_promise !! mkProposalID 4 "P0"
    = Some 0 /\
  (handle_promise three_acceptors 6 after_late_promise m).1.2 =
    broadcast three_acceptors "accept" "P0" (mkProposalID 4 "P0")
      (Some "Initial Value")
    ++ [StartTimer 4 (CheckAcceptTimeout (mkProposalID 4 "P0"))].
Proof.
  intros m. do 5 (split; [reflexivity|]).
  apply (promise_quorum_pools_proposal_ids three_acceptors 6 after_late_promise
           m (mkPromiseRecord 0 4 ∅ None 0));
    try reflexivity; try apply not_elem_of_empty; vm_compute; discriminate.
Defined.

(** ** The learner *)

(** C1.  [PaxosLearner.handle_message] adds the sender to the tally's
    [received] set but never consults it: an accepted notification from a
    sender that is already in the set raises the count all the same, and
    when the count so reaches [quorum_size] the learner calls
    [on_resolution] and drops the tally, although the set of distinct
    senders has not grown. *)
Theorem learner_counts_duplicates :
  forall (Base : Type)
         (recv_accepted : Base -> string -> ProposalID -> option string
                          -> option (Base * list Effect))
         (l : PaxosLearner Base) (msg : NetworkMessage)
         (entry : LearnerRecord) (b : Base) (out : list Effect),
    msg_type msg = "accepted" ->
    pending_accepted l !! proposal_id msg = Some entry ->
    sender msg ∈ l_received entry ->
    recv_accepted (learner_base l) (sender msg) (proposal_id msg)
      (accepted_value msg) = Some (b, out) ->
    let after := learner_handle_message recv_accepted l msg in
    if decide (learner_quorum_size l <= l_count entry + 1) then
      after.1.2 = out ++ [OnResolution (proposal_id msg) (accepted_value msg)] /\
      pending_accepted after.1.1 !! proposal_id msg = None
    else
      after.1.2 = out /\
      pending_accepted after.1.1 !! proposal_id msg =
        Some (mkLearnerRecord (l_count entry + 1) (l_value entry)
                (l_received entry)).
Proof.
  intros Base recv l msg entry b out Hty Hrec Hin Hrecv after. subst after.
  unfold learner_handle_message.
  destruct (decide (msg_type msg = "accepted")); [|done].
  rewrite Hrec, Hrecv. simpl.
  assert (l_received entry ∪ {[ sender msg ]} = l_received entry) as ->.
  { rewrite union_comm_L. apply subseteq_union_1_L.
    by apply singleton_subseteq_l. }
  destruct (decide (learner_quorum_size l <= l_count entry + 1)) as [Hq | Hq].
  - apply Z.leb_le in Hq. rewrite Hq. simpl. by rewrite lookup_delete_eq.
  - apply Z.leb_nle in Hq. rewrite Hq. simpl. by rewrite lookup_insert_eq.
Qed.

Lemma learner_counts_duplicates_witness :
  let m := accepted_from "A0" (mkProposalID 2 "P0") "v" in
  let l1 := (learner_handle_message quiet_base
               (PaxosLearner_init "L0" 2 tt) m).1.1 in
  (l_received <$> pending_accepted l1 !! mkProposalID 2 "P0")
    = Some {[ "A0" ]} /\
  (learner_handle_message quiet_base l1 m).1.2
    = [OnResolution (mkProposalID 2 "P0") (Some "v")].
Proof.
  intros m l1. split; [reflexivity|].
  pose proof (learner_counts_duplicates unit quiet_base l1 m
                (mkLearnerRecord 1 (Some "v") {[ "A0" ]}) tt []
                eq_refl eq_refl) as H.
  cbv zeta in H.
  destruct (decide _) as [_ | Hn] in H.
  - apply H; [|reflexivity]. by apply (bool_decide_unpack _).
  - exfalso. apply Hn. vm_compute. discriminate.
Defined.

(** ** The driver *)

(** The loop goes on exactly as long as no decision is seen and less than
    30 s have passed: every reading before the one it stops at shows no
    decision and an elapsed time below the limit, and the reading it stops
    at (if the series has one) shows a decision or an elapsed time of at
    least the limit. *)
Lemma wait_turns_spec (start : Q) (readings : list (option Q * Q)) :
  (forall i c now,
      (i < wait_turns start readings)%nat -> readings !! i = Some (c, now) ->
      c = None /\ (now - start < timeout_limit)%Q) /\
  (forall c now,
      readings !! wait_turns start readings = Some (c, now) ->
      is_Some c \/ (timeout_limit <= now - start)%Q).
Proof.
  induction readings as [|[c0 now0] rest [IH1 IH2]]; simpl.
  - split; [intros; lia | done].
  - destruct (keeps_waiting start c0 now0) eqn:Hk.
    + split.
      * intros [|i] c now Hi Hl; simpl in Hl.
        -- injection Hl as -> ->. unfold keeps_waiting in Hk.
           destruct c; [done|]. split; [done|]. by apply Qltb_lt.
        -- apply (IH1 i); [lia | done].
      * intros c now Hl. simpl in Hl. by apply IH2.
    + split; [intros; lia|].
      intros c now Hl. simpl in Hl. injection Hl as -> ->.
      unfold keeps_waiting in Hk. destruct c; [left; by eexists|].
      right. by apply Qltb_ge.
Qed.

(** C8, as the code has it.  The driver stays in its loop exactly while
    it sees no decision and less than 30 s have passed since the start: every
    reading before the one it leaves at shows no decision and an elapsed time
    below 30 s, and the reading it leaves at shows a decision or an elapsed
    time of 30 s or more.  Having left the loop it stops the network and
    returns the five values [(30.0, decided, latency or None, rounds,
    total_retries)]: the limit itself rather than a timed-out flag, and no
    message counts.  It returns nothing as long as no reading ends the
    loop. *)
Theorem simulate_paxos_returns :
  forall (p0 : PaxosProposer) (net : NetworkSimulator) (s start : Q)
         (readings : list (option Q * Q)),
    start_time p0 = Some s ->
    (forall c now,
        keeps_waiting start c now = true <-> c = None /\ (now - start < 30)%Q) /\
    (forall i c now,
        (i < wait_turns start readings)%nat -> readings !! i = Some (c, now) ->
        c = None /\ (now - start < 30)%Q) /\
    (forall c now,
        readings !! wait_turns start readings = Some (c, now) ->
        is_Some c \/ (30 <= now - start)%Q) /\
    ((exists c now, readings !! wait_turns start readings = Some (c, now)) ->
     simulate_paxos_wait start readings p0 net =
       Some (Some (mkResult 30 (bool_decide (is_Some (consensus_time p0)))
                     ((fun c => c - s)%Q <$> consensus_time p0)
                     (rounds p0) (total_retries net),
                   stop net))) /\
    (readings !! wait_turns start readings = None ->
     simulate_paxos_wait start readings p0 net = None) /\
    net_running (stop net) = false /\
    active_messages (stop net) = ∅.
Proof.
  intros p0 net s start readings Hs.
  destruct (wait_turns_spec start readings) as [Hbefore Hat].
  split; [|split; [exact Hbefore|split; [exact Hat|]]].
  - intros c now. unfold keeps_waiting. destruct c as [c|].
    + split; [done | by intros [? _]].
    + rewrite Qltb_lt. unfold timeout_limit. split; [by split | by intros [_ ?]].
  - split; [|split; [|done]].
    + intros (c & now & Hl). apply lookup_lt_Some in Hl.
      unfold simulate_paxos_wait. rewrite decide_True by done.
      unfold simulate_paxos_finish. rewrite Hs.
      by destruct (consensus_time p0).
    + intros Hl. apply lookup_ge_None in Hl.
      unfold simulate_paxos_wait. rewrite decide_False by lia. done.
Qed.

(** A run that sees the decision at its third reading, and one that sees
    none until the limit has passed. *)
Lemma simulate_paxos_returns_witness :
  simulate_paxos_wait 0 [(None, 1); (None, 2); (Some 2, 21 # 10); (Some 2, 22 # 10)]%Q
    decided (traffic 14 0) =
    Some (Some (mkResult 30 true (Some (2 - 0)%Q) 1 0, stop (traffic 14 0))) /\
  simulate_paxos_wait 0 [(None, 10); (None, 299 # 10); (None, 301 # 10)]%Q
    timed_out (traffic 30 0) =
    Some (Some (mkResult 30 false None 8 0, stop (traffic 30 0))) /\
  simulate_paxos_wait 0 [(None, 10); (None, 299 # 10)]%Q
    timed_out (traffic 30 0) = None.
Proof.
  split; [|split].
  - apply (simulate_paxos_returns decided (traffic 14 0) 0 0
             [(None, 1); (None, 2); (Some 2, 21 # 10); (Some 2, 22 # 10)]%Q
             eq_refl).
    by eexists _, _.
  - apply (simulate_paxos_returns timed_out (traffic 30 0) 0 0
             [(None, 10); (None, 299 # 10); (None, 301 # 10)]%Q eq_refl).
    by eexists _, _.
  - apply (simulate_paxos_returns timed_out (traffic 30 0) 0 0
             [(None, 10); (None, 299 # 10)]%Q eq_refl).
    reflexivity.
Defined.

(** C8 as stated fails: two runs that differ in the number of messages
    sent and dropped (in the second the last accepted notification has been
    sent too, and one notification to the learner was dropped) return the
    same tuple, so the returned values do not include these counts; and the
    first component is 30 in a run that reached a decision as well as in one
    that did not. *)
Lemma simulate_paxos_counterexample :
  message_count (traffic 14 0) <> message_count (traffic 15 1) /\
  dropped_messages (traffic 14 0) <> dropped_messages (traffic 15 1) /\
  fst <$> simulate_paxos_finish decided (traffic 14 0)
    = fst <$> simulate_paxos_finish decided (traffic 15 1) /\
  (r_timeout_limit ∘ fst <$> simulate_paxos_finish decided (traffic 14 0))
    = Some 30%Q /\
  (r_timeout_limit ∘ fst <$> simulate_paxos_finish timed_out (traffic 30 0))
    = Some 30%Q /\
  (r_consensus_before ∘ fst <$> simulate_paxos_finish timed_out (traffic 30 0))
    = Some false.
Proof. vm_compute. repeat split; discriminate. Qed.

(** * Further properties of the code *)

(** ** The network: registry *)

Lemma nodes_set_get_eq (m : NodeMap) (k : string) (n : NodeRef) :
  nodes_get (nodes_set m k n) k = Some n.
Proof.
  induction m as [|[k' n'] m IH]; simpl.
  - by rewrite decide_True.
  - destruct (decide (k' = k)) as [->|Hne]; simpl.
    + by rewrite decide_True.
    + by rewrite decide_False.
Qed.

Lemma nodes_set_get_ne (m : NodeMap) (k k' : string) (n : NodeRef) :
  k' <> k -> nodes_get (nodes_set m k n) k' = nodes_get m k'.
Proof.
  intros Hne. induction m as [|[k0 n0] m IH]; simpl.
  - by rewrite decide_False.
  - destruct (decide (k0 = k)) as [->|Hk]; simpl.
    + by rewrite !decide_False.
    + destruct (decide (k0 = k')); [done|]. apply IH.
Qed.

Lemma nodes_set_present (m : NodeMap) (k : string) (n : NodeRef) :
  is_Some (nodes_get m k) -> (nodes_set m k n).*1 = m.*1.
Proof.
  induction m as [|[k0 n0] m IH]; simpl.
  - by intros [? ?].
  - destruct (decide (k0 = k)) as [->|Hk]; simpl; [done|].
    intros H. f_equal. by apply IH.
Qed.

Lemma nodes_set_absent (m : NodeMap) (k : string) (n : NodeRef) :
  nodes_get m k = None -> nodes_set m k n = m ++ [(k, n)].
Proof.
  induction m as [|[k0 n0] m IH]; simpl; [done|].
  destruct (decide (k0 = k)) as [->|Hk]; simpl; [done|].
  intros H. f_equal. by apply IH.
Qed.

(** X1.  [register_node] behaves as a dict assignment: the id then maps
    to the node, every other id maps to what it did, an id that was
    registered keeps its place in the iteration order, and a new id goes to
    the end. *)
Theorem register_node_lookup :
  forall (net : NetworkSimulator) (k : string) (n : NodeRef),
    nodes_get (nodes (register_node net k n)) k = Some n /\
    (forall k', k' <> k ->
       nodes_get (nodes (register_node net k n)) k' = nodes_get (nodes net) k') /\
    (is_Some (nodes_get (nodes net) k) ->
       (nodes (register_node net k n)).*1 = (nodes net).*1) /\
    (nodes_get (nodes net) k = None ->
       nodes (register_node net k n) = nodes net ++ [(k, n)]).
Proof.
  intros net k n. simpl. split; [apply nodes_set_get_eq|].
  split; [intros k' Hne; by apply nodes_set_get_ne|].
  split; [apply nodes_set_present | apply nodes_set_absent].
Qed.

(** ** The network: sending *)

(** X2.  Once [stop()] has run, [send_message] does nothing (no counter
    moves, nothing is scheduled), and a retry timer that fires only finds
    the active set empty and schedules or delivers nothing. *)
Theorem stopped_network_is_inert :
  forall (str_pid : ProposalID -> string) (net : NetworkSimulator)
         (msg : NetworkMessage) (k : Z) (rnd dly : Q)
         (msg_id from_node to_node : string) (attempt : Z),
    send_message str_pid (stop net) msg k rnd dly = (stop net, []) /\
    retry_message (stop net) msg_id from_node to_node msg attempt rnd
      = (stop net, []).
Proof.
  intros. split; [done|].
  unfold retry_message, set_active. simpl.
  by rewrite empty_difference_L.
Qed.

(** X3.  On a running network, a send whose token is already in flight
    changes nothing.  A send with a fresh token counts one message, and then
    either schedules exactly one thing (a delivery or a retry timer) and
    keeps the token active, or schedules nothing and leaves the active set as
    it was: a token is active only while something is scheduled for it. *)
Theorem send_message_token_accounting :
  forall (str_pid : ProposalID -> string) (net : NetworkSimulator)
         (msg : NetworkMessage) (k : Z) (rnd dly : Q),
    net_running net = true ->
    (network_msg_id str_pid msg k ∈ active_messages net ->
     send_message str_pid net msg k rnd dly = (net, [])) /\
    (network_msg_id str_pid msg k ∉ active_messages net ->
     message_count (send_message str_pid net msg k rnd dly).1
       = message_count net + 1 /\
     ((exists e, (send_message str_pid net msg k rnd dly).2 = [e] /\
                 active_messages (send_message str_pid net msg k rnd dly).1
                   = active_messages net ∪ {[ network_msg_id str_pid msg k ]})
      \/ ((send_message str_pid net msg k rnd dly).2 = [] /\
          active_messages (send_message str_pid net msg k rnd dly).1
            = active_messages net /\
          dropped_messages (send_message str_pid net msg k rnd dly).1
            = dropped_messages net + 1))).
Proof.
  intros str_pid net msg k rnd dly Hrun. unfold send_message. rewrite Hrun. simpl.
  split.
  - intros Hin. by rewrite decide_True.
  - intros Hfresh. rewrite decide_False by done.
    assert ((active_messages net ∪ {[network_msg_id str_pid msg k]})
              ∖ {[network_msg_id str_pid msg k]} = active_messages net) as Hback.
    { rewrite difference_union_distr_l_L, difference_diag_L, union_empty_r_L.
      apply difference_disjoint_L. by apply disjoint_singleton_r. }
    destruct (Qltb 0 (failure_rate net) && Qltb rnd (failure_rate net)); simpl.
    + destruct (Qle_bool 1 (failure_rate net)); simpl.
      * split; [done|]. right. by rewrite Hback.
      * destruct (k <? max_retries net); simpl.
        -- split; [done|]. left. by eexists.
        -- split; [done|]. right. by rewrite Hback.
    + split; [done|]. left. by eexists.
Qed.

Lemma send_message_token_accounting_witness :
  message_count
    (send_message (fun _ => "pid") lossy_net sample_prepare 0 (3 # 4) 0).1 = 1.
Proof.
  destruct (send_message_token_accounting (fun _ => "pid") lossy_net
              sample_prepare 0 (3 # 4) 0 eq_refl) as [_ H].
  apply H. by apply (bool_decide_unpack _).
Defined.

(** X4.  The two extremes of the failure rate, for a fresh token on a
    running network.  With a rate of 0 or less nothing is ever dropped: the
    delivery is scheduled whatever the draw.  With a rate of 1 or more every
    message is dropped for good (the draw is below 1): it is counted as sent
    and as dropped, nothing is scheduled and no token stays behind. *)
Theorem send_message_extreme_rates :
  forall (str_pid : ProposalID -> string) (net : NetworkSimulator)
         (msg : NetworkMessage) (k : Z) (rnd dly : Q),
    net_running net = true ->
    network_msg_id str_pid msg k ∉ active_messages net ->
    ((failure_rate net <= 0)%Q ->
     (send_message str_pid net msg k rnd dly).2 =
       [StartDelivery (set_dropped msg false) (network_msg_id str_pid msg k) dly] /\
     dropped_messages (send_message str_pid net msg k rnd dly).1
       = dropped_messages net) /\
    ((1 <= failure_rate net)%Q -> (rnd < 1)%Q ->
     (send_message str_pid net msg k rnd dly).2 = [] /\
     message_count (send_message str_pid net msg k rnd dly).1
       = message_count net + 1 /\
     dropped_messages (send_message str_pid net msg k rnd dly).1
       = dropped_messages net + 1 /\
     (forall t, t ∈ active_messages (send_message str_pid net msg k rnd dly).1
                <-> t ∈ active_messages net)).
Proof.
  intros str_pid net msg k rnd dly Hrun Hfresh.
  unfold send_message. rewrite Hrun. simpl. rewrite decide_False by done.
  split.
  - intros Hle. apply Qltb_ge in Hle. by rewrite Hle.
  - intros Hge Hrnd.
    assert (Qltb 0 (failure_rate net) = true) as ->.
    { apply Qltb_lt. eapply Qlt_le_trans; [|exact Hge]. reflexivity. }
    assert (Qltb rnd (failure_rate net) = true) as ->.
    { apply Qltb_lt. eapply Qlt_le_trans; [exact Hrnd | exact Hge]. }
    apply Qle_bool_iff in Hge. rewrite Hge. simpl.
    repeat split; try done.
    + intros [Ht Hne]%elem_of_difference.
      apply elem_of_union in Ht as [Ht | Ht]; [done|]. by exfalso.
    + intros Ht. apply elem_of_difference. split; [by apply elem_of_union_l|].
      rewrite elem_of_singleton. intros ->. done.
Qed.

Lemma send_message_extreme_rates_witness :
  (send_message (fun _ => "pid") sample_net sample_prepare 0 (1 # 2) (1 # 20)).2 =
    [StartDelivery sample_prepare "P0-A0-prepare-pid-0" (1 # 20)].
Proof.
  destruct (send_message_extreme_rates (fun _ => "pid") sample_net
              sample_prepare 0 (1 # 2) (1 # 20) eq_refl) as [H _].
  - by apply (bool_decide_unpack _).
  - apply H. discriminate.
Defined.

(** ** The network: retries *)

(** X5.  The retry path hands the message to the receiver's handler
    exactly when the network is running, the attempt number is below 3, the
    token is still active, the draw does not drop the message again, and the
    receiver is registered with its run flag set. *)
Theorem retry_message_delivers_iff :
  forall (net : NetworkSimulator) (msg_id from_node to_node : string)
         (message : NetworkMessage) (attempt : Z) (rnd : Q),
    (retry_message net msg_id from_node to_node message attempt rnd).2
      = [HandleMessage to_node message]
    <-> (net_running net = true /\ attempt < 3 /\
         msg_id ∈ active_messages net /\
         (failure_rate net <= rnd)%Q /\
         exists node, nodes_get (nodes net) to_node = Some node
                      /\ node_running node = true).
Proof.
  intros net msg_id from_node to_node message attempt rnd.
  unfold retry_message.
  destruct (net_running net); simpl.
  2:{ split; [done | by intros [? _]]. }
  destruct (3 <=? attempt) eqn:Ha; simpl.
  { split; [done | intros (_ & Hlt & _); lia]. }
  apply Z.leb_gt in Ha.
  destruct (decide (msg_id ∉ active_messages net)) as [Hn | Hin]; simpl.
  { split; [done | intros (_ & _ & Hin & _); done]. }
  assert (msg_id ∈ active_messages net) as Hact.
  { destruct (decide (msg_id ∈ active_messages net)); [done|]. by exfalso. }
  destruct (Qltb rnd (failure_rate net)) eqn:Hd; simpl.
  { apply Qltb_lt in Hd. split; [done|].
    intros (_ & _ & _ & Hle & _). exfalso. by apply (Qlt_not_le _ _ Hd). }
  apply Qltb_ge in Hd.
  destruct (nodes_get (nodes net) to_node) as [node|] eqn:Hnode.
  - destruct (node_running node) eqn:Hr.
    + split; [|done]. intros _. repeat split; try done. by exists node.
    + split; [done|]. intros (_ & _ & _ & _ & node' & Heq & Hr').
      injection Heq as <-. congruence.
  - split; [done|]. intros (_ & _ & _ & _ & node' & Heq & _). done.
Qed.

(** X6.  A retry timer never goes on for ever: followed over its firings
    (three are enough from attempt 1), the chain ends with the token out of
    the active set, and the receiver's handler has been called at most
    once. *)
Theorem retry_chain_ends :
  forall (draws : list Q) (net : NetworkSimulator)
         (msg_id from_node to_node : string) (message : NetworkMessage)
         (attempt : Z),
    (1 <= length draws)%nat ->
    4 - attempt <= Z.of_nat (length draws) ->
    (msg_id ∉ active_messages
       (retry_chain net msg_id from_node to_node message attempt draws).1) /\
    ((retry_chain net msg_id from_node to_node message attempt draws).2 = []
     \/ (retry_chain net msg_id from_node to_node message attempt draws).2
          = [HandleMessage to_node message]).
Proof.
  induction draws as [|rnd rest IH]; intros net msg_id from_node to_node
    message attempt Hlen Hdraws; simpl in Hlen; [lia|].
  cbn [retry_chain]. unfold retry_message.
  destruct (negb (net_running net) || (3 <=? attempt)) eqn:Hstop.
  { simpl. split; [|by left].
    rewrite elem_of_difference, elem_of_singleton. tauto. }
  apply orb_false_iff in Hstop as [_ Ha]. apply Z.leb_gt in Ha.
  destruct (decide (msg_id ∉ active_messages net)) as [Hn | Hin].
  { simpl. split; [done | by left]. }
  destruct (Qltb rnd (failure_rate net)).
  - apply IH; simpl in Hdraws; [|lia].
    destruct rest; simpl in *; lia.
  - destruct (nodes_get (nodes net) to_node) as [node|]; simpl.
    + destruct (node_running node); simpl.
      * split; [|by right]. rewrite elem_of_difference, elem_of_singleton. tauto.
      * split; [|by left]. rewrite elem_of_difference, elem_of_singleton. tauto.
    + split; [|by left]. rewrite elem_of_difference, elem_of_singleton. tauto.
Qed.

Lemma retry_chain_ends_witness :
  "token" ∉ active_messages
    (retry_chain lossy_net "token" "P0" "A0" sample_prepare 1
       [1 # 4; 1 # 4; 1 # 4]).1.
Proof.
  apply (retry_chain_ends [1 # 4; 1 # 4; 1 # 4] lossy_net "token" "P0" "A0"
           sample_prepare 1); simpl; lia.
Defined.

(** ** The proposer: counts and distinct senders *)

Lemma size_add_fresh (X : gset string) (x : string) :
  x ∉ X -> Z.of_nat (size (X ∪ {[ x ]})) = Z.of_nat (size X) + 1.
Proof.
  intros Hx. rewrite size_union by (by apply disjoint_singleton_r).
  rewrite size_singleton. lia.
Qed.

Lemma prepare_counts nodes now p :
  counts_match p -> counts_match (prepare nodes now p).1.
Proof.
  intros [Hp Ha]. unfold prepare. destruct (running p); simpl; [|done].
  split; [|done]. simpl. by apply map_Forall_insert_2.
Qed.

Lemma send_accept_counts nodes now p pid v :
  counts_match p -> counts_match (send_accept nodes now p pid v).1.
Proof.
  intros [Hp Ha]. unfold send_accept.
  destruct (running p); simpl; [|done].
  destruct (quorum_reached p); simpl; [|done].
  split; [done|]. simpl. by apply map_Forall_insert_2.
Qed.

Lemma check_promise_timeout_counts nodes now p pid :
  counts_match p -> counts_match (check_promise_timeout nodes now p pid).1.
Proof.
  intros [Hp Ha]. unfold check_promise_timeout.
  destruct (pending_promises p !! pid) as [e|] eqn:He; [|done].
  destruct (_ <? quorum_size p); [|done].
  pose proof (map_Forall_lookup_1 _ _ _ _ Hp He) as Hc. simpl in Hc.
  destruct (_ <? 3).
  - apply prepare_counts. split; [|done]. simpl.
    by apply map_Forall_insert_2.
  - split; [|done]. simpl. apply map_Forall_delete.
    by apply map_Forall_insert_2.
Qed.

Lemma check_accept_timeout_counts nodes now p pid :
  counts_match p -> counts_match (check_accept_timeout nodes now p pid).1.
Proof.
  intros [Hp Ha]. unfold check_accept_timeout.
  destruct (pending_accepts p !! pid) as [e|] eqn:He; [|done].
  destruct (_ <? quorum_size p); [|done].
  pose proof (map_Forall_lookup_1 _ _ _ _ Ha He) as Hc. simpl in Hc.
  destruct (_ <? 3).
  - apply send_accept_counts. split; [done|]. simpl.
    by apply map_Forall_insert_2.
  - apply prepare_counts. split; [done|]. simpl.
    by apply map_Forall_insert_2.
Qed.

Lemma handle_promise_counts nodes now p msg :
  counts_match p -> counts_match (handle_promise nodes now p msg).1.1.
Proof.
  intros [Hp Ha]. unfold handle_promise.
  destruct (pending_promises p !! proposal_id msg) as [e|] eqn:He; [|done].
  destruct (current_phase p) as [[]|]; try done.
  destruct (decide (sender msg ∈ p_received e)) as [|Hnew]; [done|].
  pose proof (map_Forall_lookup_1 _ _ _ _ Hp He) as Hc. simpl in Hc.
  match goal with |- context [match ?t with Some _ => _ | None => _ end] =>
    destruct t as [best|] end.
  2:{ split; [|done]. simpl. apply map_Forall_insert_2; [|done].
      simpl. rewrite size_add_fresh by done. lia. }
  destruct (_ && _).
  - match goal with |- context [send_accept ?n ?t ?q ?i ?v] =>
      assert (counts_match q) as Hq;
      [| pose proof (send_accept_counts n t q i v Hq) as [Hs1 Hs2];
         destruct (send_accept n t q i v) as [p2 out] ]
    end.
    { split; [|done]. simpl. apply map_Forall_insert_2; [|done].
      simpl. rewrite size_add_fresh by done. lia. }
    simpl in *. split; [|done]. simpl. by apply map_Forall_delete.
  - split; [|done]. simpl. apply map_Forall_insert_2; [|done].
    simpl. rewrite size_add_fresh by done. lia.
Qed.

Lemma handle_accepted_counts now p msg :
  counts_match p -> counts_match (handle_accepted now p msg).
Proof.
  intros [Hp Ha]. unfold handle_accepted.
  destruct (pending_accepts p !! proposal_id msg) as [e|] eqn:He; [|done].
  destruct (current_phase p) as [[]|]; try done.
  destruct (decide (sender msg ∈ a_received e)) as [|Hnew]; [done|].
  pose proof (map_Forall_lookup_1 _ _ _ _ Ha He) as Hc. simpl in Hc.
  destruct (_ <=? _).
  - split; [done|]. simpl. by apply map_Forall_delete.
  - split; [done|]. simpl. apply map_Forall_insert_2; [|done].
    simpl. rewrite size_add_fresh by done. lia.
Qed.

Lemma step_counts str_pid nodes p ev :
  counts_match p -> counts_match (proposer_step str_pid nodes p ev).1.1.
Proof.
  intros Hp.
  destruct ev as [v|now|pid v now|pid now|pid now|msg now|]; simpl; try done.
  - by apply prepare_counts.
  - by apply send_accept_counts.
  - by apply check_promise_timeout_counts.
  - by apply check_accept_timeout_counts.
  - destruct (running p); [|done]. unfold process_message.
    destruct (decide _); [done|].
    destruct (decide (msg_type msg = "promise")).
    + match goal with |- context [handle_promise ?n ?t ?q ?m] =>
        pose proof (handle_promise_counts n t q m Hp) as Hs;
        destruct (handle_promise n t q m) as [[p2 out] r] end.
      done.
    + destruct (decide _); simpl; [|done]. by apply handle_accepted_counts.
Qed.

(** X7.  Over any history of a proposer, every pending record has counted
    each sender once: the count of promises (of accepted responses) that is
    compared with [quorum_size] is the number of distinct senders in the
    record. *)
Theorem proposer_counts_distinct_senders :
  forall (str_pid : ProposalID -> string) (nodes : NodeMap)
         (p : PaxosProposer) (evs : list ProposerEvent),
    counts_match p ->
    counts_match (proposer_run str_pid nodes p evs).1.1.
Proof.
  intros str_pid nodes p evs. revert p.
  induction evs as [|ev evs IH]; intros p Hp; [done|].
  rewrite run_cons. simpl. apply IH. by apply step_counts.
Qed.

Lemma proposer_counts_distinct_senders_witness :
  counts_match
    (proposer_run (fun _ => "pid") three_acceptors (PaxosProposer_init "P0" 2)
       [CallPrepare 0;
        LoopTakes (promise_from "A0" (mkProposalID 2 "P0")) 1;
        LoopTakes (promise_from "A0" (mkProposalID 2 "P0")) 2]).1.1.
Proof.
  apply proposer_counts_distinct_senders.
  split; apply map_Forall_empty.
Defined.

(** ** The proposer: the decision *)

Lemma prepare_consensus_time nodes now p :
  consensus_time (prepare nodes now p).1 = consensus_time p.
Proof. unfold prepare. crush_method. Qed.

Lemma send_accept_consensus_time nodes now p pid v :
  consensus_time (send_accept nodes now p pid v).1 = consensus_time p.
Proof. unfold send_accept. crush_method. Qed.

Lemma check_promise_timeout_consensus_time nodes now p pid :
  consensus_time (check_promise_timeout nodes now p pid).1 = consensus_time p.
Proof.
  unfold check_promise_timeout.
  destruct (pending_promises p !! pid); [|done].
  destruct (_ <? quorum_size p); [|done].
  destruct (_ <? 3); [|done]. by rewrite prepare_consensus_time.
Qed.

Lemma check_accept_timeout_consensus_time nodes now p pid :
  consensus_time (check_accept_timeout nodes now p pid).1 = consensus_time p.
Proof.
  unfold check_accept_timeout.
  destruct (pending_accepts p !! pid); [|done].
  destruct (_ <? quorum_size p); [|done].
  destruct (_ <? 3).
  - by rewrite send_accept_consensus_time.
  - by rewrite prepare_consensus_time.
Qed.

Lemma handle_promise_consensus_time nodes now p msg :
  consensus_time (handle_promise nodes now p msg).1.1 = consensus_time p.
Proof.
  unfold handle_promise.
  destruct (pending_promises p !! proposal_id msg) as [promises|]; [|done].
  destruct (current_phase p) as [[]|]; try done.
  destruct (decide _); [done|].
  match goal with |- context [match ?t with Some _ => _ | None => _ end] =>
    destruct t as [best|] end; [|done].
  destruct (_ && _); [|done].
  match goal with |- context [send_accept ?n ?t ?q ?i ?v] =>
    pose proof (send_accept_consensus_time n t q i v) as Hs;
    destruct (send_accept n t q i v) as [p2 out] end.
  simpl in *. done.
Qed.

(** [handle_accepted] either leaves [consensus_time] alone or sets it for
    the first time, to the clock, on an accepted response from a new sender
    that brings the record to [quorum_size]. *)
Lemma handle_accepted_consensus_time now p msg :
  consensus_time (handle_accepted now p msg) = consensus_time p \/
  (consensus_time p = None /\
   consensus_time (handle_accepted now p msg) = Some now /\
   current_phase p = Some accept_phase /\
   exists e, pending_accepts p !! proposal_id msg = Some e /\
             (sender msg ∉ a_received e) /\
             quorum_size p <= a_count e + 1).
Proof.
  unfold handle_accepted.
  destruct (pending_accepts p !! proposal_id msg) as [e|] eqn:He; [|by left].
  destruct (current_phase p) as [[]|]; try by left.
  destruct (decide (sender msg ∈ a_received e)) as [|Hnew]; [by left|].
  simpl. destruct (quorum_size p <=? a_count e + 1) eqn:Hq; [|by left].
  simpl. destruct (consensus_time p) eqn:Hc; [by left|].
  right. repeat split; try done. exists e. repeat split; try done. lia.
Qed.

Lemma step_consensus_time str_pid nodes p ev :
  consensus_time (proposer_step str_pid nodes p ev).1.1 = consensus_time p \/
  (consensus_time p = None /\
   exists msg now,
     ev = LoopTakes msg now /\ msg_type msg = "accepted" /\
     consensus_time (proposer_step str_pid nodes p ev).1.1 = Some now /\
     current_phase p = Some accept_phase /\
     exists e, pending_accepts p !! proposal_id msg = Some e /\
               (sender msg ∉ a_received e) /\
               quorum_size p <= a_count e + 1).
Proof.
  destruct ev as [v|now|pid v now|pid now|pid now|msg now|]; simpl;
    try by left.
  - left. apply prepare_consensus_time.
  - left. apply send_accept_consensus_time.
  - left. apply check_promise_timeout_consensus_time.
  - left. apply check_accept_timeout_consensus_time.
  - destruct (running p); [|by left]. unfold process_message.
    destruct (decide _); [by left|].
    destruct (decide (msg_type msg = "promise")).
    + match goal with |- context [handle_promise ?n ?t ?q ?m] =>
        pose proof (handle_promise_consensus_time n t q m) as Hs;
        destruct (handle_promise n t q m) as [[p2 out] r] end.
      left. done.
    + destruct (decide (msg_type msg = "accepted")) as [Hty|]; [|by left].
      simpl.
      match goal with |- context [handle_accepted now ?q msg] =>
        destruct (handle_accepted_consensus_time now q msg)
          as [Hsame | (Hnone & Hset & Hph & e & He & Hnew & Hq)]
      end; [by left|].
      right. split; [done|]. exists msg, now. repeat split; try done.
      by exists e.
Qed.

Lemma run_consensus_time_kept str_pid nodes p evs c :
  consensus_time p = Some c ->
  consensus_time (proposer_run str_pid nodes p evs).1.1 = Some c.
Proof.
  revert p. induction evs as [|ev evs IH]; intros p Hc; [done|].
  rewrite run_cons. simpl. apply IH.
  destruct (step_consensus_time str_pid nodes p ev) as [-> | [Hn _]]; [done|].
  congruence.
Qed.

(** X8.  The decision time is written once: a proposer that holds a
    [consensus_time] keeps that value through any history, so later quorums
    (of re-sent accepts, or of later rounds) do not move it. *)
Theorem consensus_time_set_once :
  forall (str_pid : ProposalID -> string) (nodes : NodeMap)
         (p : PaxosProposer) (evs1 evs2 : list ProposerEvent) (c : Q),
    consensus_time (proposer_run str_pid nodes p evs1).1.1 = Some c ->
    consensus_time (proposer_run str_pid nodes p (evs1 ++ evs2)).1.1 = Some c.
Proof.
  intros str_pid nodes p evs1. revert p.
  induction evs1 as [|ev evs1 IH]; intros p evs2 c Hc.
  - simpl in *. by apply run_consensus_time_kept.
  - rewrite <- app_comm_cons, run_cons. rewrite run_cons in Hc. simpl in *.
    by apply IH.
Qed.

Lemma consensus_time_set_once_witness :
  consensus_time
    (proposer_run (fun _ => "pid") three_acceptors at_quorum
       ([LoopTakes (mkMsg "accepted" "A0" "P0" (mkProposalID 2 "P0") None
                      (Some "Initial Value") false) 1;
         LoopTakes (mkMsg "accepted" "A1" "P0" (mkProposalID 2 "P0") None
                      (Some "Initial Value") false) 2]
        ++ [CallPrepare 3;
            LoopTakes (mkMsg "accepted" "A2" "P0" (mkProposalID 2 "P0") None
                         (Some "Initial Value") false) 4])).1.1
  = Some 2%Q.
Proof.
  apply (consensus_time_set_once (fun _ => "pid") three_acceptors at_quorum).
  reflexivity.
Defined.

(** X9.  A decision is backed by a quorum of distinct acceptors.  If a
    proposer whose records count each sender once has no [consensus_time]
    and a history gives it one, then the history contains a turn of the
    processing loop on an accepted message, taken at that very time in the
    accept phase, whose sender was new to the record of the message's
    proposal id and brought its set of senders to at least [quorum_size]. *)
Theorem decision_has_distinct_quorum :
  forall (str_pid : ProposalID -> string) (nodes : NodeMap)
         (evs : list ProposerEvent) (p : PaxosProposer) (c : Q),
    counts_match p ->
    consensus_time p = None ->
    consensus_time (proposer_run str_pid nodes p evs).1.1 = Some c ->
    exists evs1 msg evs2 e,
      evs = evs1 ++ LoopTakes msg c :: evs2 /\
      msg_type msg = "accepted" /\
      current_phase (proposer_run str_pid nodes p evs1).1.1 = Some accept_phase /\
      pending_accepts (proposer_run str_pid nodes p evs1).1.1 !! proposal_id msg
        = Some e /\
      (sender msg ∉ a_received e) /\
      quorum_size (proposer_run str_pid nodes p evs1).1.1
        <= Z.of_nat (size (a_received e ∪ {[ sender msg ]})).
Proof.
  intros str_pid nodes evs.
  induction evs as [|ev evs IH]; intros p c Hm Hnone Hc.
  - simpl in Hc. congruence.
  - rewrite run_cons in Hc. simpl in Hc.
    destruct (step_consensus_time str_pid nodes p ev)
      as [Hsame | (_ & msg & now & -> & Hty & Hset & Hph & e & He & Hnew & Hq)].
    + rewrite Hnone in Hsame.
      destruct (IH _ c (step_counts str_pid nodes p ev Hm) Hsame Hc)
        as (evs1 & msg & evs2 & e & -> & Hty & Hph & He & Hnew & Hq).
      exists (ev :: evs1), msg, evs2, e.
      rewrite (run_cons _ _ p ev evs1). simpl. done.
    + rewrite (run_consensus_time_kept _ _ _ _ _ Hset) in Hc.
      injection Hc as <-.
      exists [], msg, evs, e. simpl. repeat split; try done.
      destruct Hm as [_ Ha].
      pose proof (map_Forall_lookup_1 _ _ _ _ Ha He) as Hcount. simpl in Hcount.
      rewrite size_add_fresh by done. lia.
Qed.

Lemma decision_has_distinct_quorum_witness :
  exists evs1 msg evs2 e,
    [LoopTakes (mkMsg "accepted" "A0" "P0" (mkProposalID 2 "P0") None
                  (Some "Initial Value") false) 1;
     LoopTakes (mkMsg "accepted" "A1" "P0" (mkProposalID 2 "P0") None
                  (Some "Initial Value") false) 2]
      = evs1 ++ LoopTakes msg 2 :: evs2 /\
    msg_type msg = "accepted" /\
    current_phase
      (proposer_run (fun _ => "pid") three_acceptors at_quorum evs1).1.1
      = Some accept_phase /\
    pending_accepts
      (proposer_run (fun _ => "pid") three_acceptors at_quorum evs1).1.1
      !! proposal_id msg = Some e /\
    (sender msg ∉ a_received e) /\
    quorum_size (proposer_run (fun _ => "pid") three_acceptors at_quorum evs1).1.1
      <= Z.of_nat (size (a_received e ∪ {[ sender msg ]})).
Proof.
  apply (decision_has_distinct_quorum (fun _ => "pid") three_acceptors
           [LoopTakes (mkMsg "accepted" "A0" "P0" (mkProposalID 2 "P0") None
                  (Some "Initial Value") false) 1;
            LoopTakes (mkMsg "accepted" "A1" "P0" (mkProposalID 2 "P0") None
                  (Some "Initial Value") false) 2]
           at_quorum 2).
  - unfold at_quorum.
    do 2 apply handle_promise_counts.
    apply prepare_counts. split; apply map_Forall_empty.
  - reflexivity.
  - reflexivity.
Defined.

(** ** The proposer: the way into the accept phase *)

Lemma prepare_quorum_backed nodes now p :
  quorum_backed p -> quorum_backed (prepare nodes now p).1.
Proof.
  intros H. unfold prepare. destruct (running p); simpl; [|done].
  split; simpl; done.
Qed.

Lemma send_accept_quorum_backed nodes now p pid v :
  quorum_backed p -> quorum_backed (send_accept nodes now p pid v).1.
Proof.
  intros H. unfold send_accept.
  destruct (running p); simpl; [|done].
  destruct (quorum_reached p) eqn:Hq; simpl; [|done].
  destruct H as [H1 H2].
  split; simpl; [done|]. intros _. by apply H2.
Qed.

Lemma quorum_backed_idle p q :
  quorum_backed p ->
  current_phase q = None ->
  quorum_reached q = quorum_reached p ->
  quorum_size q = quorum_size p ->
  promises_rcvd q = promises_rcvd p ->
  quorum_backed q.
Proof.
  intros [H1 H2] Hph Hq Hs Hr. split.
  - by rewrite Hph.
  - rewrite Hq, Hs, Hr. apply H2.
Qed.

Lemma quorum_backed_same p q :
  quorum_backed p ->
  current_phase q = current_phase p ->
  quorum_reached q = quorum_reached p ->
  quorum_size q = quorum_size p ->
  promises_rcvd q = promises_rcvd p ->
  quorum_backed q.
Proof.
  intros [H1 H2] Hph Hq Hs Hr. split.
  - rewrite Hph, Hq. apply H1.
  - rewrite Hq, Hs, Hr. apply H2.
Qed.

Lemma check_promise_timeout_quorum_backed nodes now p pid :
  quorum_backed p -> quorum_backed (check_promise_timeout nodes now p pid).1.
Proof.
  intros H. unfold check_promise_timeout.
  destruct (pending_promises p !! pid); [|done].
  destruct (_ <? quorum_size p); [|done].
  destruct (_ <? 3).
  - apply prepare_quorum_backed. by apply (quorum_backed_idle p).
  - by apply (quorum_backed_idle p).
Qed.

Lemma check_accept_timeout_quorum_backed nodes now p pid :
  quorum_backed p -> quorum_backed (check_accept_timeout nodes now p pid).1.
Proof.
  intros H. unfold check_accept_timeout.
  destruct (pending_accepts p !! pid); [|done].
  destruct (_ <? quorum_size p); [|done].
  destruct (_ <? 3).
  - apply send_accept_quorum_backed. by apply (quorum_backed_same p).
  - apply prepare_quorum_backed. by apply (quorum_backed_idle p).
Qed.

Lemma handle_promise_quorum_backed nodes now p msg :
  quorum_backed p -> quorum_backed (handle_promise nodes now p msg).1.1.
Proof.
  intros H. pose proof H as [H1 H2]. unfold handle_promise.
  destruct (pending_promises p !! proposal_id msg) as [e|]; [|done].
  destruct (current_phase p) as [[]|] eqn:Hph; try done.
  destruct (decide _); [done|].
  match goal with |- context [match ?t with Some _ => _ | None => _ end] =>
    destruct t as [best|] end.
  2:{ by apply (quorum_backed_same p). }
  destruct (_ && _) eqn:Hreached.
  - apply andb_true_iff in Hreached as [Hq _]. apply Z.leb_le in Hq.
    match goal with |- context [send_accept ?n ?t ?q ?i ?v] =>
      assert (quorum_backed q) as Hq';
      [| pose proof (send_accept_quorum_backed n t q i v Hq') as Hs;
         destruct (send_accept n t q i v) as [p2 out] ]
    end.
    { split; simpl; [done | by intros _]. }
    simpl in *. by apply (quorum_backed_same p2).
  - split; simpl; [done|].
    intros Hq. etrans; [by apply H2|].
    apply inj_le, subseteq_size, union_subseteq_l.
Qed.

Lemma handle_accepted_quorum_backed now p msg :
  quorum_backed p -> quorum_backed (handle_accepted now p msg).
Proof.
  intros H. unfold handle_accepted.
  destruct (pending_accepts p !! proposal_id msg) as [e|]; [|done].
  destruct (current_phase p) as [[]|] eqn:Hph; try done.
  destruct (decide _); [done|].
  destruct (_ <=? _).
  - by apply (quorum_backed_idle p).
  - by apply (quorum_backed_same p).
Qed.

Lemma step_quorum_backed str_pid nodes p ev :
  quorum_backed p -> quorum_backed (proposer_step str_pid nodes p ev).1.1.
Proof.
  intros Hp.
  destruct ev as [v|now|pid v now|pid now|pid now|msg now|]; simpl.
  - by apply (quorum_backed_same p).
  - by apply prepare_quorum_backed.
  - by apply send_accept_quorum_backed.
  - by apply check_promise_timeout_quorum_backed.
  - by apply check_accept_timeout_quorum_backed.
  - destruct (running p); [|done]. unfold process_message.
    destruct (decide _); [done|].
    assert (quorum_backed
              (with_processed p
                 (processed_messages p ∪ {[proposer_msg_id str_pid msg]})))
      as Hp1 by (by apply (quorum_backed_same p)).
    destruct (decide (msg_type msg = "promise")).
    + match goal with |- context [handle_promise ?n ?t ?q ?m] =>
        pose proof (handle_promise_quorum_backed n t q m Hp1) as Hs;
        destruct (handle_promise n t q m) as [[p2 out] r] end.
      done.
    + destruct (decide _); simpl; [|done].
      by apply handle_accepted_quorum_backed.
  - by apply (quorum_backed_same p).
Qed.

(** X10.  Whatever the history, a proposer that starts from its initial
    state is in the accept phase only with [quorum_reached] set, and
    [quorum_reached] is set only while [promises_rcvd] holds at least
    [quorum_size] senders counted since the last [prepare()]: neither a
    timer, a crash, a stray message nor a direct call of [send_accept] gets
    it into the accept phase without that quorum. *)
Theorem accept_phase_needs_promise_quorum :
  forall (str_pid : ProposalID -> string) (nodes : NodeMap)
         (node_id : string) (quorum : Z) (evs : list ProposerEvent),
    quorum_backed
      (proposer_run str_pid nodes (PaxosProposer_init node_id quorum) evs).1.1.
Proof.
  intros str_pid nodes node_id quorum evs.
  assert (quorum_backed (PaxosProposer_init node_id quorum)) as Hinit.
  { split; simpl; done. }
  revert Hinit. generalize (PaxosProposer_init node_id quorum).
  induction evs as [|ev evs IH]; intros p Hp; [done|].
  rewrite run_cons. simpl. apply IH. by apply step_quorum_backed.
Qed.

(** ** The proposer: proposal numbers *)

Lemma numbers_in_order_later p q :
  numbers_in_order p ->
  (forall pid, is_Some (pending_promises q !! pid) ->
               is_Some (pending_promises p !! pid)) ->
  current_proposal_id q = current_proposal_id p ->
  proposer_uid q = proposer_uid p ->
  next_proposal_number p <= next_proposal_number q ->
  numbers_in_order q.
Proof.
  intros [Hm Hc] Hkeys Hcur Hu Hn. split.
  - intros pid e He.
    destruct (Hkeys pid (mk_is_Some _ _ He)) as [e' He'].
    destruct (Hm pid e' He') as [H1 H2]. rewrite Hu. split; [lia | done].
  - intros pid Hpid. rewrite Hcur in Hpid.
    destruct (Hc pid Hpid) as [H1 H2]. rewrite Hu. split; [lia | done].
Qed.

Lemma is_Some_insert_existing {V} (m : gmap ProposalID V) k v k' :
  is_Some (m !! k) -> is_Some (<[ k := v ]> m !! k') -> is_Some (m !! k').
Proof.
  intros Hk. rewrite lookup_insert. case_decide; [by subst | done].
Qed.

Lemma is_Some_delete {V} (m : gmap ProposalID V) k k' :
  is_Some (delete k m !! k') -> is_Some (m !! k').
Proof. rewrite lookup_delete. by case_decide; [intros [? ?]|]. Qed.

Lemma prepare_numbers nodes now p :
  numbers_in_order p ->
  numbers_in_order (prepare nodes now p).1 /\
  next_proposal_number p <= next_proposal_number (prepare nodes now p).1.
Proof.
  intros [Hm Hc]. unfold prepare. destruct (running p); simpl; [|by split].
  split; [|lia]. split; simpl.
  - apply map_Forall_insert_2; [simpl; split; [lia | done]|].
    eapply map_Forall_impl; [exact Hm|]. simpl. intros pid _ [H1 H2].
    split; [lia | done].
  - intros pid [= <-]. simpl. split; [lia | done].
Qed.

Lemma send_accept_numbers nodes now p pid v :
  numbers_in_order p ->
  numbers_in_order (send_accept nodes now p pid v).1 /\
  next_proposal_number p <= next_proposal_number (send_accept nodes now p pid v).1.
Proof.
  intros H. unfold send_accept.
  destruct (running p); simpl; [|by split].
  destruct (quorum_reached p); simpl; [|by split].
  split; [|lia]. by apply (numbers_in_order_later p).
Qed.

Lemma check_promise_timeout_numbers nodes now p pid :
  numbers_in_order p ->
  numbers_in_order (check_promise_timeout nodes now p pid).1 /\
  next_proposal_number p
    <= next_proposal_number (check_promise_timeout nodes now p pid).1.
Proof.
  intros H. unfold check_promise_timeout.
  destruct (pending_promises p !! pid) as [e|] eqn:He; [|by split].
  destruct (_ <? quorum_size p); [|by split].
  destruct (_ <? 3).
  - match goal with |- context [prepare nodes now ?q] =>
      destruct (prepare_numbers nodes now q) as [H1 H2] end.
    + apply (numbers_in_order_later p); simpl; try done; [|lia].
      intros pid'. by apply is_Some_insert_existing.
    + split; [done|]. etrans; [|exact H2]. simpl. lia.
  - split; [|done]. apply (numbers_in_order_later p); simpl; try done.
    intros pid' Hs. apply is_Some_delete in Hs.
    revert Hs. by apply is_Some_insert_existing.
Qed.

Lemma check_accept_timeout_numbers nodes now p pid :
  numbers_in_order p ->
  numbers_in_order (check_accept_timeout nodes now p pid).1 /\
  next_proposal_number p
    <= next_proposal_number (check_accept_timeout nodes now p pid).1.
Proof.
  intros H. unfold check_accept_timeout.
  destruct (pending_accepts p !! pid) as [e|] eqn:He; [|by split].
  destruct (_ <? quorum_size p); [|by split].
  destruct (_ <? 3).
  - match goal with |- context [send_accept nodes now ?q ?i ?v] =>
      destruct (send_accept_numbers nodes now q i v) as [H1 H2] end.
    + by apply (numbers_in_order_later p).
    + split; [done|]. etrans; [|exact H2]. simpl. lia.
  - match goal with |- context [prepare nodes now ?q] =>
      destruct (prepare_numbers nodes now q) as [H1 H2] end.
    + apply (numbers_in_order_later p); simpl; try done. lia.
    + split; [done|]. etrans; [|exact H2]. simpl. lia.
Qed.

Lemma handle_promise_numbers nodes now p msg :
  numbers_in_order p ->
  numbers_in_order (handle_promise nodes now p msg).1.1 /\
  next_proposal_number p
    <= next_proposal_number (handle_promise nodes now p msg).1.1.
Proof.
  intros H. unfold handle_promise.
  destruct (pending_promises p !! proposal_id msg) as [e|] eqn:He; [|by split].
  destruct (current_phase p) as [[]|]; try by split.
  destruct (decide _); [by split|].
  match goal with |- context [match ?t with Some _ => _ | None => _ end] =>
    destruct t as [best|] end.
  2:{ split; [|done]. apply (numbers_in_order_later p); simpl; try done.
      intros pid'. by apply is_Some_insert_existing. }
  destruct (_ && _).
  - match goal with |- context [send_accept ?n ?t ?q ?i ?v] =>
      assert (numbers_in_order q) as Hq;
      [| destruct (send_accept_numbers n t q i v Hq) as [Hs1 Hs2];
         destruct (send_accept n t q i v) as [p2 out] ]
    end.
    { apply (numbers_in_order_later p); simpl; try done.
      intros pid'. by apply is_Some_insert_existing. }
    simpl in *. split; [|done].
    apply (numbers_in_order_later p2); simpl; try done.
    intros pid'. apply is_Some_delete.
  - split; [|done]. apply (numbers_in_order_later p); simpl; try done.
    intros pid'. by apply is_Some_insert_existing.
Qed.

Lemma handle_accepted_numbers now p msg :
  numbers_in_order p ->
  numbers_in_order (handle_accepted now p msg) /\
  next_proposal_number p <= next_proposal_number (handle_accepted now p msg).
Proof.
  intros H. unfold handle_accepted.
  destruct (pending_accepts p !! proposal_id msg) as [e|]; [|by split].
  destruct (current_phase p) as [[]|]; try by split.
  destruct (decide _); [by split|].
  destruct (_ <=? _); (split; [|done]); by apply (numbers_in_order_later p).
Qed.

Lemma step_numbers str_pid nodes p ev :
  numbers_in_order p ->
  numbers_in_order (proposer_step str_pid nodes p ev).1.1 /\
  next_proposal_number p
    <= next_proposal_number (proposer_step str_pid nodes p ev).1.1.
Proof.
  intros Hp.
  destruct ev as [v|now|pid v now|pid now|pid now|msg now|]; simpl.
  - split; [|done]. by apply (numbers_in_order_later p).
  - by apply prepare_numbers.
  - by apply send_accept_numbers.
  - by apply check_promise_timeout_numbers.
  - by apply check_accept_timeout_numbers.
  - destruct (running p); [|by split]. unfold process_message.
    destruct (decide _); [by split|].
    assert (numbers_in_order
              (with_processed p
                 (processed_messages p ∪ {[proposer_msg_id str_pid msg]})))
      as Hp1 by (by apply (numbers_in_order_later p)).
    destruct (decide (msg_type msg = "promise")).
    + match goal with |- context [handle_promise ?n ?t ?q ?m] =>
        pose proof (handle_promise_numbers n t q m Hp1) as Hs;
        destruct (handle_promise n t q m) as [[p2 out] r] end.
      done.
    + destruct (decide _); simpl; [|split; [exact Hp1 | simpl; lia]].
      destruct (handle_accepted_numbers now _ msg Hp1) as [H1 H2].
      split; [exact H1 | exact H2].
  - split; [|done]. by apply (numbers_in_order_later p).
Qed.

(** X11.  Proposal numbers only go up, and every [prepare()] mints a new
    id.  Through any history the proposer's number never decreases and the
    ids of its pending promise records and its current id stay at or below
    it; so the id that the next [prepare()] of a running proposer takes is
    its own, is greater than the current one, and has no pending record
    yet. *)
Theorem proposal_ids_are_fresh :
  forall (str_pid : ProposalID -> string) (nodes : NodeMap)
         (p : PaxosProposer) (evs : list ProposerEvent) (now : Q),
    numbers_in_order p ->
    let q := (proposer_run str_pid nodes p evs).1.1 in
    let next := mkProposalID (next_proposal_number q + 1) (proposer_uid q) in
    numbers_in_order q /\
    next_proposal_number p <= next_proposal_number q /\
    pending_promises q !! next = None /\
    (forall old, current_proposal_id q = Some old -> pid_gtb next old = true) /\
    (running q = true ->
     current_proposal_id (prepare nodes now q).1 = Some next).
Proof.
  intros str_pid nodes p evs now Hp q next.
  assert (numbers_in_order q /\ next_proposal_number p <= next_proposal_number q)
    as [Hq Hn].
  { subst q. clear next. revert p Hp.
    induction evs as [|ev evs IH]; intros p Hp; [by split|].
    rewrite run_cons. simpl.
    destruct (step_numbers str_pid nodes p ev Hp) as [H1 H2].
    destruct (IH _ H1) as [H3 H4]. split; [done | lia]. }
  split; [done|]. split; [done|].
  destruct Hq as [Hm Hc]. split; [|split].
  - destruct (pending_promises q !! next) as [e|] eqn:He; [|done].
    destruct (Hm next e He) as [H1 _]. simpl in H1. lia.
  - intros old Hold. destruct (Hc old Hold) as [H1 _].
    unfold pid_gtb, next. simpl.
    assert ((next_proposal_number q + 1 ?= number old) = Gt) as ->; [|done].
    apply Z.compare_gt_iff. lia.
  - intros Hrun. unfold prepare. by rewrite Hrun.
Qed.

Lemma proposal_ids_are_fresh_witness :
  let q :=
    (proposer_run (fun _ => "pid") three_acceptors (PaxosProposer_init "P0" 2)
       [CallPrepare 0; PromiseTimerFires (mkProposalID 2 "P0") 4]).1.1 in
  pending_promises q
    !! mkProposalID (next_proposal_number q + 1) (proposer_uid q) = None.
Proof.
  intros q.
  pose proof (proposal_ids_are_fresh (fun _ => "pid") three_acceptors
                (PaxosProposer_init "P0" 2)
                [CallPrepare 0; PromiseTimerFires (mkProposalID 2 "P0") 4] 0)
    as H.
  cbv zeta in H. apply H.
  split; [apply map_Forall_empty | by intros pid].
Defined.

(** ** The proposer: after a crash *)

Lemma run_app str_pid nodes p evs1 evs2 :
  proposer_run str_pid nodes p (evs1 ++ evs2) =
    ((proposer_run str_pid nodes
        (proposer_run str_pid nodes p evs1).1.1 evs2).1.1,
     (proposer_run str_pid nodes p evs1).1.2
       ++ (proposer_run str_pid nodes
             (proposer_run str_pid nodes p evs1).1.1 evs2).1.2,
     (proposer_run str_pid nodes p evs1).2
       ++ (proposer_run str_pid nodes
             (proposer_run str_pid nodes p evs1).1.1 evs2).2).
Proof.
  revert p. induction evs1 as [|ev evs1 IH]; intros p.
  - simpl. by destruct (proposer_run str_pid nodes p evs2) as [[? ?] ?].
  - rewrite <- app_comm_cons, !run_cons, IH. simpl. by rewrite !app_assoc.
Qed.

Lemma prepare_crashed nodes now p :
  running p = false -> prepare nodes now p = (p, []).
Proof. intros H. unfold prepare. by rewrite H. Qed.

Lemma send_accept_crashed nodes now p pid v :
  running p = false -> send_accept nodes now p pid v = (p, []).
Proof. intros H. unfold send_accept. by rewrite H. Qed.

Lemma step_crashed str_pid nodes p ev :
  running p = false ->
  running (proposer_step str_pid nodes p ev).1.1 = false /\
  (proposer_step str_pid nodes p ev).1.2 = [] /\
  (proposer_step str_pid nodes p ev).2 = None.
Proof.
  intros Hr.
  destruct ev as [v|now|pid v now|pid now|pid now|msg now|]; simpl; try done.
  - by rewrite prepare_crashed.
  - by rewrite send_accept_crashed.
  - unfold check_promise_timeout.
    destruct (pending_promises p !! pid); [|done].
    destruct (_ <? quorum_size p); [|done].
    destruct (_ <? 3); [|done]. by rewrite prepare_crashed.
  - unfold check_accept_timeout.
    destruct (pending_accepts p !! pid); [|done].
    destruct (_ <? quorum_size p); [|done].
    destruct (_ <? 3).
    + by rewrite send_accept_crashed.
    + by rewrite prepare_crashed.
  - by rewrite Hr.
Qed.

Lemma run_crashed str_pid nodes p evs :
  running p = false ->
  running (proposer_run str_pid nodes p evs).1.1 = false /\
  (proposer_run str_pid nodes p evs).1.2 = [] /\
  (proposer_run str_pid nodes p evs).2 = [].
Proof.
  revert p. induction evs as [|ev evs IH]; intros p Hr; [done|].
  rewrite run_cons. simpl.
  destruct (step_crashed str_pid nodes p ev Hr) as (H1 & -> & ->).
  destruct (IH _ H1) as (H2 & -> & ->). done.
Qed.

(** X12.  A crashed proposer is silent.  Whatever comes after the crash
    (timers that were armed before it, messages already queued, further
    calls), nothing more is sent or armed and no message reaches a handler:
    the output of the whole history is the output of the part before the
    crash.  (A turn of the processing loop is taken to test the run flag
    when it takes its message.) *)
Theorem crashed_proposer_is_silent :
  forall (str_pid : ProposalID -> string) (nodes : NodeMap)
         (p : PaxosProposer) (evs1 evs2 : list ProposerEvent),
    (proposer_run str_pid nodes p (evs1 ++ Crash :: evs2)).1.2
      = (proposer_run str_pid nodes p evs1).1.2 /\
    (proposer_run str_pid nodes p (evs1 ++ Crash :: evs2)).2
      = (proposer_run str_pid nodes p evs1).2 /\
    running (proposer_run str_pid nodes p (evs1 ++ Crash :: evs2)).1.1 = false.
Proof.
  intros str_pid nodes p evs1 evs2.
  rewrite run_app. cbn [fst snd]. rewrite run_cons. cbn [fst snd proposer_step].
  destruct (run_crashed str_pid nodes
              (set_running (proposer_run str_pid nodes p evs1).1.1 false) evs2
              eq_refl) as (H1 & -> & ->).
  simpl. by rewrite !app_nil_r.
Qed.

(** ** The driver: quorum size and registry *)

(** X13.  The quorum size the driver gives to proposers and learners,
    [num_acceptors // 2 + 1], is the least number that is more than half of
    the acceptors, so two sets of that many acceptors always share a
    member. *)
Theorem driver_quorum_intersects :
  forall (n : nat) (acceptors X Y : gset string),
    size acceptors = n ->
    X ⊆ acceptors -> Y ⊆ acceptors ->
    driver_quorum n <= Z.of_nat (size X) ->
    driver_quorum n <= Z.of_nat (size Y) ->
    (2 * (driver_quorum n - 1) <= Z.of_nat n < 2 * driver_quorum n) /\
    exists a, a ∈ X /\ a ∈ Y.
Proof.
  intros n acceptors X Y Hn HX HY HqX HqY.
  assert (2 * (driver_quorum n - 1) <= Z.of_nat n < 2 * driver_quorum n) as Hq.
  { unfold driver_quorum.
    pose proof (Z.div_mod (Z.of_nat n) 2 ltac:(lia)) as Hd.
    pose proof (Z.mod_pos_bound (Z.of_nat n) 2 ltac:(lia)) as Hm. lia. }
  split; [done|].
  assert (0 < size (X ∩ Y))%nat as Hpos.
  { assert (size (X ∪ Y) <= n)%nat as Hu.
    { rewrite <- Hn. apply subseteq_size. by apply union_least. }
    rewrite size_union_alt in Hu.
    pose proof (size_difference_alt Y X) as Hd.
    assert (size (Y ∩ X) <= size Y)%nat as Hle
      by (apply subseteq_size, intersection_subseteq_l).
    assert (X ∩ Y = Y ∩ X) as -> by apply intersection_comm_L.
    lia. }
  destruct (size_pos_elem_of _ Hpos) as [a Ha].
  apply elem_of_intersection in Ha. by exists a.
Qed.

Lemma driver_quorum_intersects_witness :
  exists a, a ∈ ({[ "A0"; "A1" ]} : gset string)
            /\ a ∈ ({[ "A1"; "A2" ]} : gset string).
Proof.
  apply (driver_quorum_intersects 3 {[ "A0"; "A1"; "A2" ]}
           {[ "A0"; "A1" ]} {[ "A1"; "A2" ]}).
  - reflexivity.
  - by apply (bool_decide_unpack _).
  - by apply (bool_decide_unpack _).
  - vm_compute. discriminate.
  - vm_compute. discriminate.
Defined.

Lemma nodes_get_None (m : NodeMap) (k : string) :
  nodes_get m k = None <-> k ∉ m.*1.
Proof.
  induction m as [|[k0 n0] m IH]; simpl.
  - split; [intros _; apply not_elem_of_nil | done].
  - rewrite not_elem_of_cons. destruct (decide (k0 = k)) as [->|Hne].
    + split; [done | by intros [? _]].
    + rewrite IH. split; [by split | by intros [_ ?]].
Qed.

Lemma register_all (role : Role) (names : list string) (net : NetworkSimulator) :
  NoDup names ->
  (forall k, k ∈ names -> k ∉ (nodes net).*1) ->
  nodes (foldl (fun net name => register_node net name (mkNodeRef role true))
           net names)
    = nodes net ++ ((fun k => (k, mkNodeRef role true)) <$> names).
Proof.
  revert net. induction names as [|k names IH]; intros net Hnd Hfresh; simpl.
  - by rewrite app_nil_r.
  - apply NoDup_cons in Hnd as [Hk Hnd].
    assert (nodes (register_node net k (mkNodeRef role true))
            = nodes net ++ [(k, mkNodeRef role true)]) as Hreg.
    { simpl. apply nodes_set_absent, nodes_get_None, Hfresh, list_elem_of_here. }
    rewrite IH; [|done|].
    + rewrite Hreg, <- app_assoc. done.
    + intros k' Hk'. rewrite Hreg, fmap_app. simpl.
      rewrite not_elem_of_app. split.
      * apply Hfresh. by apply list_elem_of_further.
      * rewrite list_elem_of_singleton. by intros ->.
Qed.

Lemma register_all_from (role : Role) (names : list string)
    (net : NetworkSimulator) (l : NodeMap) :
  nodes net = l ->
  NoDup names ->
  (forall k, k ∈ names -> k ∉ l.*1) ->
  nodes (foldl (fun net name => register_node net name (mkNodeRef role true))
           net names)
    = l ++ ((fun k => (k, mkNodeRef role true)) <$> names).
Proof. intros <-. apply register_all. Qed.

Lemma node_names_NoDup (prefix : string) (n : nat) : NoDup (node_names prefix n).
Proof.
  unfold node_names.
  apply (NoDup_fmap_2_strong _); [|apply NoDup_seq].
  intros i j _ _ Heq. apply (inj (String.app prefix)) in Heq.
  by apply (inj pretty) in Heq.
Qed.

Lemma node_names_first (c : Ascii.ascii) (n : nat) (k : string) :
  k ∈ node_names (String c EmptyString) n -> exists s, k = String c s.
Proof.
  unfold node_names. intros (i & -> & _)%list_elem_of_fmap. simpl. by eexists.
Qed.

Lemma filter_role (r r' : Role) (names : list string) :
  filter (fun kn : string * NodeRef => node_role kn.2 = r)
    ((fun k => (k, mkNodeRef r' true)) <$> names)
  = if decide (r' = r) then (fun k => (k, mkNodeRef r' true)) <$> names else [].
Proof.
  destruct (decide (r' = r)) as [Heq | Hne];
    induction names as [|k names IH]; try done.
  - rewrite fmap_cons, filter_cons_True by done. by rewrite IH.
  - rewrite fmap_cons, filter_cons_False by done. done.
Qed.

(** The registry the driver builds: proposers, then acceptors, then
    learners, each under its own name. *)
Lemma driver_nodes_layout (np na nl : nat) :
  driver_nodes np na nl =
    ((fun k => (k, mkNodeRef PaxosProposerNode true)) <$> node_names "P" np)
    ++ ((fun k => (k, mkNodeRef PaxosAcceptorNode true)) <$> node_names "A" na)
    ++ ((fun k => (k, mkNodeRef PaxosLearnerNode true)) <$> node_names "L" nl).
Proof.
  unfold driver_nodes. cbv zeta. rewrite app_assoc.
  apply register_all_from; [| apply node_names_NoDup |].
  - apply register_all_from; [| apply node_names_NoDup |].
    + apply (register_all_from _ _ _ []); [done | apply node_names_NoDup |].
      intros k _. apply not_elem_of_nil.
    + intros k Hk. rewrite <- list_fmap_compose.
      intros (k' & -> & Hk')%list_elem_of_fmap. simpl in *.
      apply node_names_first in Hk as [s Hs], Hk' as [s' Hs'].
      congruence.
  - intros k Hk. rewrite fmap_app, <- !list_fmap_compose, not_elem_of_app.
    apply node_names_first in Hk as [s Hs].
    split; intros (k' & -> & Hk')%list_elem_of_fmap; simpl in *;
      apply node_names_first in Hk' as [s' Hs']; congruence.
Qed.

(** X14.  In the network the driver builds for [np] proposers (at least
    one, or there is no [proposers[0]] to start), [na] acceptors and [nl]
    learners, the first proposer's [prepare()] hands the network exactly one
    prepare for proposal [(2, P0)] per acceptor [A0 .. A(na-1)], in this
    order, and arms one timer of 4 s; no proposer or learner is sent a
    prepare.  [P0] is a registered proposer of that network. *)
Theorem driver_prepare_reaches_acceptors :
  forall (np na nl : nat) (now : Q),
    (1 <= np)%nat ->
    nodes_get (driver_nodes np na nl) "P0"
      = Some (mkNodeRef PaxosProposerNode true) /\
    (simulate_paxos_start (driver_nodes np na nl) na now).2 =
      ((fun to => SendMessage
                    (mkMsg "prepare" "P0" to (mkProposalID 2 "P0") None None false))
         <$> node_names "A" na)
      ++ [StartTimer 4 (CheckPromiseTimeout (mkProposalID 2 "P0"))].
Proof.
  intros np na nl now Hnp. split.
  { rewrite driver_nodes_layout. destruct np as [|np]; [lia|].
    unfold node_names. cbn [seq fmap list_fmap app nodes_get].
    by rewrite decide_True. }
  unfold simulate_paxos_start.
  match goal with |- context [prepare ?n ?t ?q] =>
    destruct (prepare_awaiting n t q) as (_ & _ & _ & ->) end.
  - reflexivity.
  - simpl. unfold driver_quorum.
    pose proof (Z.div_pos (Z.of_nat na) 2). lia.
  - cbn [node_id timeout next_proposal_number proposer_uid set_start_time
         set_proposal PaxosProposer_init Z.add Pos.add].
    f_equal. unfold broadcast, acceptor_ids, NodeMap.
    rewrite driver_nodes_layout, !filter_app, !filter_role.
    rewrite !decide_False by done. rewrite decide_True by done.
    rewrite app_nil_l, app_nil_r, <- !list_fmap_compose. done.
Qed.

Lemma driver_prepare_reaches_acceptors_witness :
  nodes_get (driver_nodes 1 3 1) "P0" = Some (mkNodeRef PaxosProposerNode true) /\
  (simulate_paxos_start (driver_nodes 1 3 1) 3 0).2 =
    ((fun to => SendMessage
                  (mkMsg "prepare" "P0" to (mkProposalID 2 "P0") None None false))
       <$> ["A0"; "A1"; "A2"])
    ++ [StartTimer 4 (CheckPromiseTimeout (mkProposalID 2 "P0"))].
Proof.
  apply (driver_prepare_reaches_acceptors 1 3 1 0). lia.
Defined.

(** X15.  An acceptor's [send_accepted] in that network sends one accepted
    notification to every proposer and every learner (proposers first), and
    none to an acceptor. *)
Theorem driver_accepted_reaches_proposers_and_learners :
  forall (np na nl : nat) (a : PaxosAcceptor) (pid : ProposalID)
         (value : option string),
    send_accepted (driver_nodes np na nl) a pid value =
      (fun to => SendMessage
                   (mkMsg "accepted" (acceptor_id a) to pid None value false))
        <$> (node_names "P" np ++ node_names "L" nl).
Proof.
  intros np na nl a pid value. unfold send_accepted, NodeMap.
  rewrite driver_nodes_layout, !filter_app.
  assert (forall r names,
             filter (fun kn : string * NodeRef =>
                       node_role kn.2 = PaxosLearnerNode
                       \/ node_role kn.2 = PaxosProposerNode)
               ((fun k => (k, mkNodeRef r true)) <$> names)
             = if decide (r = PaxosAcceptorNode) then []
               else (fun k => (k, mkNodeRef r true)) <$> names) as Hf.
  { intros r names.
    destruct (decide (r = PaxosAcceptorNode)) as [-> | Hne];
      induction names as [|k names IH]; try done.
    rewrite fmap_cons, filter_cons_True; [by rewrite IH|].
    simpl. destruct r; [by right | done | by left]. }
  rewrite !Hf. simpl. rewrite !fmap_app, <- !list_fmap_compose. done.
Qed.

(** ** The network: duplicates in flight, counters *)

(** X16.  Duplicate suppression lasts exactly as long as the message is in
    flight.  After a send that schedules a delivery, sending the same
    message again is ignored (nothing is counted or scheduled); once
    [_deliver_message] has run for the token, the same message is taken and
    counted again. *)
Theorem duplicate_suppressed_while_in_flight :
  forall (str_pid : ProposalID -> string) (net : NetworkSimulator)
         (msg : NetworkMessage) (k : Z) (rnd dly rnd' dly' : Q),
    net_running net = true ->
    network_msg_id str_pid msg k ∉ active_messages net ->
    (failure_rate net <= rnd)%Q ->
    let sent := (send_message str_pid net msg k rnd dly).1 in
    let delivered :=
      (deliver_message sent (set_dropped msg false)
         (network_msg_id str_pid msg k)).1 in
    (send_message str_pid net msg k rnd dly).2 =
      [StartDelivery (set_dropped msg false) (network_msg_id str_pid msg k) dly] /\
    send_message str_pid sent msg k rnd' dly' = (sent, []) /\
    message_count sent = message_count net + 1 /\
    message_count (send_message str_pid delivered msg k rnd' dly').1
      = message_count net + 2.
Proof.
  intros str_pid net msg k rnd dly rnd' dly' Hrun Hfresh Hkeep sent delivered.
  assert (send_message str_pid net msg k rnd dly =
          ({| nodes := nodes net; delay_range := delay_range net;
              failure_rate := failure_rate net;
              net_running := net_running net;
              message_count := message_count net + 1;
              dropped_messages := dropped_messages net;
              max_retries := max_retries net;
              active_messages :=
                active_messages net ∪ {[ network_msg_id str_pid msg k ]};
              total_retries := total_retries net |},
           [StartDelivery (set_dropped msg false)
              (network_msg_id str_pid msg k) dly])) as Hsend.
  { unfold send_message. rewrite Hrun. simpl.
    rewrite decide_False by done.
    apply Qltb_ge in Hkeep. rewrite Hkeep, andb_false_r. done. }
  subst delivered sent. rewrite Hsend. cbn [fst snd].
  split; [done|]. split; [|split; [done|]].
  - unfold send_message. simpl. rewrite Hrun. simpl.
    rewrite decide_True; [done|].
    apply elem_of_union_r. by apply elem_of_singleton.
  - unfold send_message, deliver_message.
    simpl. rewrite Hrun. simpl.
    rewrite decide_False
      by (rewrite elem_of_difference, elem_of_singleton; tauto).
    destruct (_ && _); simpl; [|lia].
    destruct (Qle_bool 1 (failure_rate net)); simpl; [lia|].
    destruct (k <? max_retries net); simpl; lia.
Qed.

Lemma duplicate_suppressed_while_in_flight_witness :
  let sent :=
    (send_message (fun _ => "pid") sample_net sample_prepare 0 0 0).1 in
  send_message (fun _ => "pid") sent sample_prepare 0 0 0 = (sent, []).
Proof.
  intros sent.
  pose proof (duplicate_suppressed_while_in_flight (fun _ => "pid") sample_net
                sample_prepare 0 0 0 0 0 eq_refl) as H.
  cbv zeta in H. apply H.
  - by apply (bool_decide_unpack _).
  - discriminate.
Defined.



(** ** The learner: tallies *)

Lemma size_add_le (X : gset string) (x : string) :
  (1 <= size (X ∪ {[ x ]}) <= size X + 1)%nat.
Proof.
  split.
  - rewrite <- (size_singleton (C := gset string) x).
    apply subseteq_size, union_subseteq_r.
  - rewrite size_union_alt.
    assert (size ({[ x ]} ∖ X : gset string) <= 1)%nat; [|lia].
    rewrite <- (size_singleton (C := gset string) x).
    apply subseteq_size, subseteq_difference_l. done.
Qed.

Lemma learner_handle_message_tallies {Base : Type}
    (recv : Base -> string -> ProposalID -> option string
            -> option (Base * list Effect))
    (l : PaxosLearner Base) (msg : NetworkMessage) :
  map_Forall (fun _ e => 1 <= Z.of_nat (size (l_received e)) <= l_count e)
    (pending_accepted l) ->
  map_Forall (fun _ e => 1 <= Z.of_nat (size (l_received e)) <= l_count e)
    (pending_accepted (learner_handle_message recv l msg).1.1).
Proof.
  intros Hl. unfold learner_handle_message.
  destruct (decide (msg_type msg = "accepted")) as [_|]; [|done].
  assert (map_Forall
            (fun _ e => 1 <= Z.of_nat (size (l_received e)) <= l_count e)
            (<[ proposal_id msg :=
                  mkLearnerRecord
                    (l_count match pending_accepted l !! proposal_id msg with
                             | Some e => e
                             | None => mkLearnerRecord 0 (accepted_value msg) ∅
                             end + 1)
                    (l_value match pending_accepted l !! proposal_id msg with
                             | Some e => e
                             | None => mkLearnerRecord 0 (accepted_value msg) ∅
                             end)
                    (l_received match pending_accepted l !! proposal_id msg with
                                | Some e => e
                                | None => mkLearnerRecord 0 (accepted_value msg) ∅
                                end ∪ {[ sender msg ]}) ]>
               (pending_accepted l))) as Hnew.
  { apply map_Forall_insert_2; [|done]. cbn beta.
    destruct (pending_accepted l !! proposal_id msg) as [e|] eqn:He;
      cbn [l_count l_received].
    - pose proof (map_Forall_lookup_1 _ _ _ _ Hl He) as Hc. simpl in Hc.
      pose proof (size_add_le (l_received e) (sender msg)). lia.
    - pose proof (size_add_le ∅ (sender msg)) as Hs.
      rewrite size_empty in Hs. lia. }
  destruct (recv _ _ _ _) as [[b out]|]; simpl; [|done].
  destruct (_ <=? _); simpl; [|done].
  by apply map_Forall_delete.
Qed.

(** X18.  Whatever accepted notifications a learner is handed, and whether
    or not the base class raises on some of them, every tally it holds has a
    sender and a count that is at least the number of its distinct senders:
    the count can run ahead of the senders (C1), never behind. *)
Theorem learner_count_covers_senders :
  forall (Base : Type)
         (recv_accepted : Base -> string -> ProposalID -> option string
                          -> option (Base * list Effect))
         (node_id : string) (quorum : Z) (b : Base)
         (msgs : list NetworkMessage),
    map_Forall (fun _ e => 1 <= Z.of_nat (size (l_received e)) <= l_count e)
      (pending_accepted
         (learner_run recv_accepted (PaxosLearner_init node_id quorum b) msgs).1).
Proof.
  intros Base recv node_id quorum b msgs.
  assert (map_Forall
            (fun _ e => 1 <= Z.of_nat (size (l_received e)) <= l_count e)
            (pending_accepted (PaxosLearner_init node_id quorum b))) as Hinit
    by apply map_Forall_empty.
  revert Hinit. generalize (PaxosLearner_init node_id quorum b).
  induction msgs as [|msg msgs IH]; intros l Hl; [done|].
  simpl.
  pose proof (learner_handle_message_tallies recv l msg Hl) as H1.
  destruct (learner_handle_message recv l msg) as [[l1 out1] r1].
  specialize (IH l1 H1).
  destruct (learner_run recv l1 msgs) as [l2 out2]. done.
Qed.

(** ** The proposer: from promises to accept *)

(** X19.  The first phase completes.  A running proposer in the prepare
    phase whose record for [pid] holds [count] promises from the senders in
    [promises_rcvd], and that then handles promises without a prior value
    from as many new, distinct acceptors as it still needs, sends nothing
    until the last of them, and on the last one moves to the accept phase and
    sends [accept(pid, proposal_value)] to every registered acceptor, once. *)
Theorem promise_quorum_sends_accept :
  forall (nodes : NodeMap) (now : Q) (senders : list string)
         (p : PaxosProposer) (pid : ProposalID) (entry : PromiseRecord),
    running p = true ->
    current_phase p = Some prepare_phase ->
    quorum_reached p = false ->
    pending_promises p !! pid = Some entry ->
    p_value entry = None ->
    p_received entry = promises_rcvd p ->
    NoDup senders ->
    (forall a, a ∈ senders -> a ∉ promises_rcvd p) ->
    (1 <= length senders)%nat ->
    Z.of_nat (size (promises_rcvd p)) + Z.of_nat (length senders)
      = quorum_size p ->
    let msgs :=
      (fun a => mkMsg "promise" a (node_id p) pid None None false) <$> senders in
    let after := handle_promises nodes now p msgs in
    current_phase after.1 = Some accept_phase /\
    quorum_reached after.1 = true /\
    after.2 = broadcast nodes "accept" (node_id p) pid (proposal_value p)
              ++ [StartTimer (timeout p) (CheckAcceptTimeout pid)] /\
    pending_accepts after.1 !! pid
      = Some (mkAcceptRecord 0 now ∅ (proposal_value p) 0) /\
    pending_promises after.1 !! pid = None.
Proof.
  intros nodes now senders.
  induction senders as [|a rest IH];
    intros p pid entry Hrun Hph Hqr Hrec Hval Hrcv Hnd Hnew Hlen Hq msgs after;
    simpl in Hlen; [lia|].
  subst msgs after. rewrite fmap_cons. cbn [handle_promises].
  apply NoDup_cons in Hnd as [Ha Hnd].
  assert (a ∉ promises_rcvd p) as Hfresh by (apply Hnew, list_elem_of_here).
  assert (Z.of_nat (size (promises_rcvd p ∪ {[a]}))
          = Z.of_nat (size (promises_rcvd p)) + 1) as Hsize
    by (by apply size_add_fresh).
  destruct (handle_promise nodes now p
              (mkMsg "promise" a (node_id p) pid None None false))
    as [[p1 out1] r1] eqn:Hstep.
  unfold handle_promise in Hstep.
  cbn [proposal_id sender accepted_value previous_id] in Hstep.
  rewrite Hrec, Hph in Hstep. rewrite decide_False in Hstep by (by rewrite Hrcv).
  cbn [p_value p_count p_start_time p_received p_retry_count] in Hstep.
  rewrite Hval in Hstep.
  destruct (decide (rest = [])) as [-> | Hrest].
  - (* the last promise: quorum *)
    simpl in Hq.
    assert ((quorum_size p <=? Z.of_nat (size (promises_rcvd p ∪ {[a]})))
            && negb (quorum_reached p) = true) as Hreached.
    { rewrite Hqr. simpl. rewrite andb_true_r. lia. }
    rewrite Hreached in Hstep.
    unfold send_accept in Hstep. cbn [running quorum_reached negb] in Hstep.
    rewrite Hrun in Hstep. cbn [negb] in Hstep.
    injection Hstep as <- <- <-.
    cbn -[broadcast]. rewrite app_nil_r.
    rewrite lookup_insert_eq, lookup_delete_eq. done.
  - (* more to come *)
    assert ((quorum_size p <=? Z.of_nat (size (promises_rcvd p ∪ {[a]})))
            && negb (quorum_reached p) = false) as Hnot.
    { apply andb_false_iff. left. destruct rest; [done|]. simpl in Hq. lia. }
    rewrite Hnot in Hstep. injection Hstep as <- <- <-.
    match goal with
    | |- context [handle_promises nodes now ?q ?ms] =>
        pose proof (IH q pid
                      (mkPromiseRecord (p_count entry + 1) (p_start_time entry)
                         (p_received entry ∪ {[a]}) None (p_retry_count entry)))
          as IH'
    end.
    cbn [running current_phase quorum_reached pending_promises promises_rcvd
         p_value p_received node_id quorum_size timeout proposal_value
         fst snd] in IH'.
    cbv zeta in IH'.
    destruct IH' as (H1 & H2 & H3 & H4 & H5); try done.
    + by rewrite lookup_insert_eq.
    + by rewrite Hrcv.
    + intros b Hb. rewrite not_elem_of_union, elem_of_singleton. split.
      * apply Hnew. by apply list_elem_of_further.
      * intros ->. done.
    + destruct rest; [done|]. simpl. lia.
    + rewrite Hsize. simpl in Hq. lia.
    + destruct (handle_promises nodes now _ _) as [p2 out2].
      simpl in *. done.
Qed.

Lemma promise_quorum_sends_accept_witness :
  (handle_promises three_acceptors 1 started
     [mkMsg "promise" "A2" "P0" (mkProposalID 2 "P0") None None false;
      mkMsg "promise" "A0" "P0" (mkProposalID 2 "P0") None None false]).2
  = broadcast three_acceptors "accept" "P0" (mkProposalID 2 "P0")
      (Some "Initial Value")
    ++ [StartTimer 4 (CheckAcceptTimeout (mkProposalID 2 "P0"))].
Proof.
  pose proof (promise_quorum_sends_accept three_acceptors 1 ["A2"; "A0"]
                started (mkProposalID 2 "P0")
                (mkPromiseRecord 0 0 ∅ None 0)
                eq_refl eq_refl eq_refl eq_refl eq_refl eq_refl) as H.
  cbv zeta in H. apply H.
  - apply (bool_decide_unpack _). by vm_compute.
  - intros a _. apply not_elem_of_empty.
  - simpl. lia.
  - reflexivity.
Defined.
